(** * Invoice-PDF: the job-status pipeline of the Express server

    A shallow embedding of the server code (rate limiter, invoice routes,
    SSE registry, background PDF job) and the properties of its
    specification.

    Conventions.
    - Dates are integers: milliseconds since the epoch, as [Date.getTime]
      returns them ([Z]).
    - A MongoDB collection is a finite map from the key the code queries it
      by to the stored document ([gmap]).
    - The [sseClients] [Map] is a [gmap] from the user id to the response
      object registered for it.
    - Where the code awaits an operation that can reject (a [save], the
      renderer, a socket write) the outcome is an explicit argument of the
      function, so that both continuations of the source are modelled. *)

From Stdlib Require Import ZArith String List Lia.
From stdpp Require Import gmap strings list fin_maps.

Open Scope Z_scope.

(** ** Rate limiter: [checkRateLimit] *)

Module RateLimiter.

(** A document of the [RateLimit] collection (the [userId] is the key). *)
Record RateLimit := { count : Z; resetTime : Z }.

(** What the middleware does with the request: [next()] or the 429 reply,
    whose message carries [timeLeft]. *)
Inductive Decision :=
| Allow
| Deny (timeLeft : Z).

(** [Math.ceil(a / b)] for an integer [a] and a positive integer [b]. The
    quotients met here are below 2^53 and at least 1/1000 away from the
    next integer, so the floating-point division rounds nothing across an
    integer. *)
Definition ceilDiv (a b : Z) : Z := - ((- a) / b).

(** [RateLimit.findOne({ userId })], and the fresh document built when there
    is none. *)
Definition findOrNew (db : gmap string RateLimit) (userId : string) (now : Z)
  : RateLimit :=
  match db !! userId with
  | Some c => c
  | None => {| count := 0; resetTime := now + 60000 |}
  end.

(** [if (now > userRateLimit.resetTime) { count = 0; resetTime = now + 60000 }] *)
Definition resetIfPassed (now : Z) (c : RateLimit) : RateLimit :=
  if now >? resetTime c
  then {| count := 0; resetTime := now + 60000 |}
  else c.

(** The document the middleware holds in memory when it reaches the test
    of the limit. *)
Definition fetched (db : gmap string RateLimit) (userId : string) (now : Z)
  : RateLimit :=
  resetIfPassed now (findOrNew db userId now).

(** [userRateLimit.count += 1] *)
Definition bump (c : RateLimit) : RateLimit :=
  {| count := count c + 1; resetTime := resetTime c |}.

(** The middleware, for an authenticated [userId], at time [now]. On the 429
    branch it returns before [save]; otherwise it increments and saves.
    [findOne] and [save] of this collection are taken to resolve (when one
    rejects, the [catch] answers 500, outside the admission decision). *)
Definition checkRateLimit (db : gmap string RateLimit) (userId : string) (now : Z)
  : Decision * gmap string RateLimit :=
  let c := fetched db userId now in
  if count c >=? 5
  then (Deny (ceilDiv (resetTime c - now) 1000), db)
  else (Allow, <[userId := bump c]> db).

(** A sequence of checks of one user, at the given times. *)
Fixpoint runChecks (db : gmap string RateLimit) (userId : string) (times : list Z)
  : list Decision * gmap string RateLimit :=
  match times with
  | [] => ([], db)
  | now :: rest =>
      let '(d, db1) := checkRateLimit db userId now in
      let '(ds, db2) := runChecks db1 userId rest in
      (d :: ds, db2)
  end.

Definition isAllow (d : Decision) : bool :=
  match d with Allow => true | Deny _ => false end.

(** The end of the window a call at [now] runs in: the [resetTime] of the
    counter after the fetch-or-create and the reset test. *)
Definition windowEnd (db : gmap string RateLimit) (userId : string) (now : Z) : Z :=
  resetTime (fetched db userId now).

(** [t] lies in the 60-second window that ends at [R]. *)
Definition inWindow (R t : Z) : Prop := R - 60000 <= t < R.

(** Stored counts are never negative: they start at 0 and are incremented. *)
Definition counterWf (db : gmap string RateLimit) (userId : string) : Prop :=
  forall c, db !! userId = Some c -> 0 <= count c.

End RateLimiter.

(** ** Interleaved rate-limiter checks

    [checkRateLimit] is an [async] function with two awaits, [findOne] and
    [save]. Between them other requests run. A request in flight is a task:
    it has not fetched yet, or it holds its incremented document and waits
    for [save], or it has answered.

    The tasks are the requests that find the counter of their user in the
    collection, inside its window ([inScope] below). For them [save] sends
    the incremented count of the one document of the user, which the map
    keyed by user represents. A request that creates the counter or resets
    its window sends other paths, or inserts a document of its own; when it
    overlaps with others it is outside this model (when it runs alone it is
    [checkRateLimit]). *)

Module Race.
Import RateLimiter.

Inductive Task :=
| Fetching (userId : string) (now : Z)
| Saving (userId : string) (doc : RateLimit)
| Done (d : Decision).

(** One turn of the event loop for a task: from a resolved await to the
    next one. *)
Definition stepTask (db : gmap string RateLimit) (t : Task)
  : gmap string RateLimit * Task :=
  match t with
  | Fetching userId now =>
      let c := fetched db userId now in
      if count c >=? 5
      then (db, Done (Deny (ceilDiv (resetTime c - now) 1000)))
      else (db, Saving userId (bump c))
  | Saving userId doc => (<[userId := doc]> db, Done Allow)
  | Done d => (db, Done d)
  end.

(** A schedule names the task that takes each successive turn. *)
Fixpoint runSchedule (sched : list nat) (db : gmap string RateLimit)
  (tasks : list Task) : gmap string RateLimit * list Task :=
  match sched with
  | [] => (db, tasks)
  | i :: rest =>
      match tasks !! i with
      | Some t =>
          let '(db1, t1) := stepTask db t in
          runSchedule rest db1 (<[i := t1]> tasks)
      | None => runSchedule rest db tasks
      end
  end.

Definition admitted (t : Task) : bool :=
  match t with Done Allow => true | _ => false end.

(** The tasks the model covers: the request finds (or has found) the stored
    counter of its user, and the window of that counter has not passed for
    it. *)
Definition inScope (db : gmap string RateLimit) (t : Task) : Prop :=
  match t with
  | Fetching userId now =>
      exists c, db !! userId = Some c /\ now <= resetTime c
  | Saving userId doc =>
      exists c, db !! userId = Some c /\ resetTime doc = resetTime c
  | Done _ => True
  end.

End Race.

(** ** Notification hub: [sseClients], [sendSSEUpdate] *)

Module Hub.

(** The response object of an open [/api/sse] connection. *)
Definition Client := nat.

Inductive Event :=
| Connected
| InvoiceReady (invoiceId : string)
| InvoiceFailed (invoiceId : string).

(** [sseClients], and the frames written to the connections so far. *)
Record State := {
  sseClients : gmap string Client;
  wire : list (Client * Event)
}.

Inductive Completion := Returned | Thrown.

(** [client.write(...)]: [ok] tells whether the write goes through or
    throws. *)
Definition write (ok : bool) (client : Client) (data : Event) (st : State)
  : Completion * State :=
  if ok
  then (Returned, {| sseClients := sseClients st; wire := wire st ++ [(client, data)] |})
  else (Thrown, st).

(** [sendSSEUpdate(userId, data)], with its [try]/[catch] around the write. *)
Definition sendSSEUpdate (ok : bool) (userId : string) (data : Event) (st : State)
  : Completion * State :=
  match sseClients st !! userId with
  | Some client =>
      match write ok client data st with
      | (Returned, st1) => (Returned, st1)
      | (Thrown, st1) =>
          (Returned, {| sseClients := delete userId (sseClients st1); wire := wire st1 |})
      end
  | None => (Returned, st)
  end.

(** [GET /api/sse] once the token is verified: register [res], then write
    the greeting (outside any [try]). *)
Definition subscribe (ok : bool) (userId : string) (res : Client) (st : State)
  : Completion * State :=
  write ok res Connected
    {| sseClients := <[userId := res]> (sseClients st); wire := wire st |}.

(** The [close] and [error] handlers of the request. *)
Definition onClose (userId : string) (st : State) : State :=
  {| sseClients := delete userId (sseClients st); wire := wire st |}.

End Hub.

(** ** Invoices and the background job *)

Module Job.
Import Hub.

Inductive Status := processing | ready | failed.

(** A document of the [Invoice] collection. The dates, line items and
    amounts of the schema are carried along unchanged by every operation
    below and are left out. *)
Record Invoice := {
  _id : string;
  userId : string;
  clientName : string;
  clientEmail : string;
  invoiceNumber : string;
  status : Status;
  pdfPath : option string
}.

(** The server: both collections, the [pdfs] directory (file name to
    content) and the hub. *)
Record Server := {
  rateLimits : gmap string RateLimiter.RateLimit;
  invoices : gmap string Invoice;
  files : gmap string string;
  hub : Hub.State
}.

Definition setRateLimits (v : gmap string RateLimiter.RateLimit) (s : Server) : Server :=
  {| rateLimits := v; invoices := invoices s; files := files s; hub := hub s |}.
Definition setInvoices (v : gmap string Invoice) (s : Server) : Server :=
  {| rateLimits := rateLimits s; invoices := v; files := files s; hub := hub s |}.
Definition setFiles (v : gmap string string) (s : Server) : Server :=
  {| rateLimits := rateLimits s; invoices := invoices s; files := v; hub := hub s |}.
Definition setHub (v : Hub.State) (s : Server) : Server :=
  {| rateLimits := rateLimits s; invoices := invoices s; files := files s; hub := v |}.

(** [invoice.save()]: writes the in-memory document under its [_id]. *)
Definition save (inv : Invoice) (s : Server) : Server :=
  setInvoices (<[_id inv := inv]> (invoices s)) s.

(** [`invoice-${invoice._id}.pdf`] *)
Definition pdfName (inv : Invoice) : string :=
  ("invoice-" ++ _id inv ++ ".pdf")%string.

(** The last three statements of [generatePDF] before [save]:
    [invoice.pdfPath = filename; invoice.status = 'ready']. *)
Definition markReady (inv : Invoice) : Invoice :=
  {| _id := _id inv; userId := userId inv; clientName := clientName inv;
     clientEmail := clientEmail inv; invoiceNumber := invoiceNumber inv;
     status := ready; pdfPath := Some (pdfName inv) |}.

(** The assignment of the [catch] block: [invoice.status = 'failed']. *)
Definition markFailed (inv : Invoice) : Invoice :=
  {| _id := _id inv; userId := userId inv; clientName := clientName inv;
     clientEmail := clientEmail inv; invoiceNumber := invoiceNumber inv;
     status := failed; pdfPath := pdfPath inv |}.

(** What the renderer does for a job in a run whose awaits all settle: the
    buffer of the [toBlob] path if it got as far as [writeFileSync], and of
    the fallback stream if that one did; [None] stands for a throw. The run
    in which the fallback stream never ends is [Stalled], below. *)
Record Render := { toBlob : option string; fallback : option string }.

Definition written (r : Render) : option string :=
  match toBlob r with
  | Some buffer => Some buffer
  | None => fallback r
  end.

(** [generatePDF(invoice)]. [invoice] is the in-memory document, shared with
    the caller: its assignments are visible there also when the function
    throws. [saved] tells whether the final [invoice.save()] resolves. *)
Definition generatePDF (r : Render) (saved : bool) (inv : Invoice) (s : Server)
  : Completion * Invoice * Server :=
  match written r with
  | None => (Thrown, inv, s)
  | Some buffer =>
      let s1 := setFiles (<[pdfName inv := buffer]> (files s)) s in
      let inv1 := markReady inv in
      if saved then (Returned, inv1, save inv1 s1) else (Thrown, inv1, s1)
  end.

(** The outcomes the environment decides during one run of the job. *)
Record Run := {
  render : Render;
  readySaved : bool;    (* the [save] inside [generatePDF] *)
  failedSaved : bool;   (* the [save] of the [catch] block *)
  pushed : bool         (* the SSE write *)
}.

(** The [try] block of the [setTimeout] callback of [POST /api/invoices],
    for the invoice the handler created. *)
Definition jobTry (e : Run) (inv : Invoice) (s : Server)
  : Completion * Invoice * Server :=
  match generatePDF (render e) (readySaved e) inv s with
  | (Returned, inv1, s1) =>
      let '(c, h) :=
        sendSSEUpdate (pushed e) (userId inv1) (InvoiceReady (_id inv1)) (hub s1) in
      (c, inv1, setHub h s1)
  | thrown => thrown
  end.

(** The server after the Node process has ended: the collections and the
    files stay, the registry of connections, which lives in the process, is
    gone. *)
Definition crashed (s : Server) : Server :=
  setHub {| sseClients := ∅; wire := wire (hub s) |} s.

(** Its [catch] block. A rejected [save] ends the callback with an
    exception, before the update is sent. Nothing handles the rejection of
    the [async] callback of the timer, and an unhandled rejection ends the
    process (Node 15 and later; the README asks for Node 18). *)
Definition jobCatch (e : Run) (inv : Invoice) (s : Server)
  : Completion * Invoice * Server :=
  let inv1 := markFailed inv in
  if failedSaved e then
    let s1 := save inv1 s in
    let '(c, h) :=
      sendSSEUpdate (pushed e) (userId inv1) (InvoiceFailed (_id inv1)) (hub s1) in
    (c, inv1, setHub h s1)
  else (Thrown, inv1, crashed s).

(** The callback. *)
Definition runJob (e : Run) (inv : Invoice) (s : Server)
  : Completion * Invoice * Server :=
  match jobTry e inv s with
  | (Returned, inv1, s1) => (Returned, inv1, s1)
  | (Thrown, inv1, s1) => jobCatch e inv1 s1
  end.

(** The course of the callback as the environment decides it. The fallback
    of [generatePDF] waits for an [end] event of the object that [pdf()]
    returns; when [toBlob] has thrown and that event never comes, the
    promise never settles and the callback never resumes: the run is
    [Stalled]. [Settled e] is a run whose awaits all settle, with the
    outcomes [e]. *)
Inductive Course :=
| Settled (e : Run)
| Stalled.

(** The callback along a course; no completion for a stalled run, which
    leaves the invoice and the server as they are. *)
Definition runCourse (c : Course) (inv : Invoice) (s : Server)
  : option Completion * Invoice * Server :=
  match c with
  | Settled e => let '(k, inv1, s1) := runJob e inv s in (Some k, inv1, s1)
  | Stalled => (None, inv, s)
  end.

(** The invariant of the specification on one job. *)
Definition artifactIffReady (inv : Invoice) : Prop :=
  is_Some (pdfPath inv) <-> status inv = ready.


End Job.

(** ** Routes: [POST /api/invoices] and [GET /api/invoices/:id/download] *)

Module Api.
Import RateLimiter Hub Job.

Inductive Response :=
| Created (invoice : Invoice)          (* 201 with the document *)
| TooManyRequests (timeLeft : Z)       (* 429, 'Try again in <timeLeft> seconds.' *)
| Json (code : Z) (error : string)     (* res.status(code).json({ error }) *)
| Attachment (filename : string) (content : string).

(** The fields of the request body the model keeps. *)
Record Body := {
  bClientName : string;
  bClientEmail : string;
  bInvoiceNumber : string
}.

(** [new Invoice({ userId, ..., status: 'processing' })]; [oid] is the
    identifier the constructor draws. *)
Definition newInvoice (oid userId : string) (b : Body) : Invoice :=
  {| _id := oid; userId := userId; clientName := bClientName b;
     clientEmail := bClientEmail b; invoiceNumber := bInvoiceNumber b;
     status := processing; pdfPath := None |}.

(** [POST /api/invoices] for an authenticated user: the rate-limit
    middleware, then the handler. [saved] tells whether [invoice.save()]
    resolves (it rejects on a validation or storage error, and the handler
    answers 500). On 201 the job of [Job.runJob] is scheduled for the
    invoice. *)
Definition postInvoice (saved : bool) (oid userId : string) (now : Z) (b : Body)
  (s : Server) : Response * Server :=
  let '(d, rl) := checkRateLimit (rateLimits s) userId now in
  let s1 := setRateLimits rl s in
  match d with
  | Deny timeLeft => (TooManyRequests timeLeft, s1)
  | Allow =>
      let invoice := newInvoice oid userId b in
      if saved
      then (Created invoice, save invoice s1)
      else (Json 500 "Internal server error", s1)
  end.

(** One creation request of a user, with what the environment decides. *)
Record Post := {
  time : Z;
  oid : string;
  body : Body;
  saved : bool
}.

Fixpoint runPosts (userId : string) (ps : list Post) (s : Server)
  : list Response * Server :=
  match ps with
  | [] => ([], s)
  | p :: rest =>
      let '(r, s1) := postInvoice (saved p) (oid p) userId (time p) (body p) s in
      let '(rs, s2) := runPosts userId rest s1 in
      (r :: rs, s2)
  end.

(** The request passed the limiter: any answer but 429. *)
Definition wasAdmitted (r : Response) : bool :=
  match r with TooManyRequests _ => false | _ => true end.

(** The request created a job: the 201 answer. *)
Definition wasCreated (r : Response) : bool :=
  match r with Created _ => true | _ => false end.

(** The request passed the limiter and the handler answered 500. *)
Definition creationFailed (r : Response) : bool :=
  match r with Json code _ => code =? 500 | _ => false end.

(** What [Invoice.findOne({ _id: id, userId })] gives the route: the query
    throws when [id] cannot be cast to an ObjectId, finds no document, or
    finds the document. *)
Inductive Found :=
| CastError
| NoDocument
| Document (invoice : Invoice).

(** JavaScript truthiness of [invoice.pdfPath]. *)
Definition truthy (p : option string) : bool :=
  match p with
  | None => false
  | Some EmptyString => false
  | Some _ => true
  end.

Definition isReady (st : Status) : bool :=
  match st with ready => true | _ => false end.

(** The double quote. *)
Definition quote : string := String (Ascii.ascii_of_nat 34) EmptyString.

(** [`attachment; filename=<quote>invoice-${invoice.invoiceNumber}.pdf<quote>`] *)
Definition disposition (invoiceNumber : string) : string :=
  ("attachment; filename=" ++ quote ++ "invoice-" ++ invoiceNumber ++ ".pdf" ++ quote)%string.

Section Libraries.

(** The strings Mongoose casts to an ObjectId. *)
Variable isObjectId : string -> bool.
(** The header values [res.setHeader] accepts; on the others it throws. *)
Variable validHeader : string -> bool.

(** [Invoice.findOne({ _id: id, userId })]. [id] is the path parameter, any
    string; [userId] is the id in the verified token, an ObjectId the server
    issued. *)
Definition findOne (coll : gmap string Invoice) (id userId : string) : Found :=
  if isObjectId id then
    match coll !! id with
    | Some invoice =>
        if String.eqb (Job.userId invoice) userId then Document invoice else NoDocument
    | None => NoDocument
    end
  else CastError.

(** [GET /api/invoices/:id/download] for an authenticated user. A file of
    the [pdfs] directory is looked up by the name stored in [pdfPath]. What
    is thrown inside the [try] (by the query, by [path.join] or by
    [res.setHeader]) is answered 500 by the [catch]. *)
Definition download (s : Server) (userId id : string) : Response :=
  match findOne (invoices s) id userId with
  | CastError => Json 500 "Internal server error"
  | NoDocument => Json 404 "Invoice not found"
  | Document invoice =>
      if negb (isReady (status invoice)) || negb (truthy (pdfPath invoice))
      then Json 400 "PDF not ready for download"
      else
        match pdfPath invoice with
        | Some p =>
            match files s !! p with
            | None => Json 404 "PDF file not found"
            | Some content =>
                if validHeader (disposition (invoiceNumber invoice))
                then Attachment ("invoice-" ++ invoiceNumber invoice ++ ".pdf") content
                else Json 500 "Internal server error"
            end
        | None => Json 500 "Internal server error"
        end
  end.

End Libraries.

(** Identifiers in their usual form, 24 hexadecimal digits, which the cast
    accepts. *)
Definition isHexDigit (c : Ascii.ascii) : bool :=
  let n := Ascii.nat_of_ascii c in
  ((48 <=? n) && (n <=? 57) || (97 <=? n) && (n <=? 102)
   || (65 <=? n) && (n <=? 70))%nat.

Fixpoint allChars (p : Ascii.ascii -> bool) (w : string) : bool :=
  match w with
  | EmptyString => true
  | String c rest => p c && allChars p rest
  end.

Definition hexId (id : string) : bool :=
  (String.length id =? 24)%nat && allChars isHexDigit id.

(** Header values made of visible ASCII characters and spaces, which
    [res.setHeader] accepts. *)
Definition visible (v : string) : bool :=
  allChars (fun c => (32 <=? Ascii.nat_of_ascii c)%nat
                     && (Ascii.nat_of_ascii c <=? 126)%nat) v.

End Api.

(** ** Calls of several users *)

Module Traffic.
Import RateLimiter.

(** The middleware serving the calls of any users, one after the other:
    each call is a user and the time of the call. *)
Fixpoint runCalls (db : gmap string RateLimit) (calls : list (string * Z))
  : list Decision * gmap string RateLimit :=
  match calls with
  | [] => ([], db)
  | (userId, now) :: rest =>
      let '(d, db1) := checkRateLimit db userId now in
      let '(ds, db2) := runCalls db1 rest in
      (d :: ds, db2)
  end.

(** The times at which [userId] called. *)
Fixpoint timesOf (userId : string) (calls : list (string * Z)) : list Z :=
  match calls with
  | [] => []
  | (caller, now) :: rest =>
      if String.eqb caller userId
      then now :: timesOf userId rest
      else timesOf userId rest
  end.

(** The decisions that the calls of [userId] received. *)
Fixpoint decisionsOf (userId : string) (calls : list (string * Z))
  (ds : list Decision) : list Decision :=
  match calls, ds with
  | (caller, _) :: rest, d :: ds1 =>
      if String.eqb caller userId
      then d :: decisionsOf userId rest ds1
      else decisionsOf userId rest ds1
  | _, _ => []
  end.

(** Every stored count lies between 0 and the limit. *)
Definition bounded (db : gmap string RateLimit) : Prop :=
  forall userId c, db !! userId = Some c -> 0 <= count c <= 5.

(** The document a task in flight is about to save is within the limit. *)
Definition taskBounded (t : Race.Task) : Prop :=
  match t with
  | Race.Saving _ doc => 0 <= count doc <= 5
  | _ => True
  end.

End Traffic.

(** ** Authentication: [authenticateToken], the auth routes, [/api/sse] *)

Module Auth.
Import Hub Api.

(** [s.split(sep)] for a separator of one character. *)
Fixpoint splitOn (sep : Ascii.ascii) (s : string) : list string :=
  match s with
  | EmptyString => [EmptyString]
  | String c rest =>
      if Ascii.eqb c sep
      then EmptyString :: splitOn sep rest
      else
        match splitOn sep rest with
        | w :: ws => String c w :: ws
        | [] => [String c EmptyString]
        end
  end.

(** [sep] does not occur in [w]. *)
Fixpoint free (sep : Ascii.ascii) (w : string) : bool :=
  match w with
  | EmptyString => true
  | String c rest => negb (Ascii.eqb c sep) && free sep rest
  end.

(** A string that is present and not empty: the values for which [!x] is
    false. *)
Definition nonEmpty (x : option string) : option string :=
  match x with
  | Some EmptyString => None
  | other => other
  end.

(** A document of the [User] collection, stored under its unique [email]. *)
Record User := { uid : string; password : string }.

Inductive Reply :=
| Ok (code : Z) (message token id email : string)
| Error (code : Z) (error : string).

(** What a middleware does: [next()] with [req.user], or an error answer. *)
Inductive Checked :=
| Next (userId : string)
| Refused (code : Z) (error : string).

Section Libraries.

(** [jwt.verify(token, JWT_SECRET)] at the time of the request: the
    [userId] of the payload, or an error. *)
Variable verify : string -> option string.
(** [jwt.sign({ userId }, JWT_SECRET, { expiresIn: '24h' })]. *)
Variable sign : string -> string.
(** [bcrypt.hash(password, 10)], with the salt it draws. *)
Variable hash : string -> string -> string.
(** [bcrypt.compare(password, hashed)]. *)
Variable compare : string -> string -> bool.

(** [authHeader && authHeader.split(' ')[1]] *)
Definition headerToken (authHeader : option string) : option string :=
  match authHeader with
  | None => None
  | Some EmptyString => Some EmptyString
  | Some h => splitOn Ascii.Space h !! 1%nat
  end.

(** [authenticateToken] *)
Definition authenticateToken (authHeader : option string) : Checked :=
  match nonEmpty (headerToken authHeader) with
  | None => Refused 401 "Access token required"
  | Some token =>
      match verify token with
      | None => Refused 403 "Invalid or expired token"
      | Some userId => Next userId
      end
  end.


(** [POST /api/auth/login] *)
Definition login (email password : option string) (users : gmap string User)
  : Reply :=
  match nonEmpty email, nonEmpty password with
  | Some e, Some p =>
      match users !! e with
      | None => Error 400 "Invalid credentials"
      | Some user =>
          if compare p (Auth.password user)
          then Ok 200 "Login successful" (sign (uid user)) (uid user) e
          else Error 400 "Invalid credentials"
      end
  | _, _ => Error 400 "Email and password are required"
  end.

(** [GET /api/sse]: the token is the [authorization] query parameter; [res]
    is the response object of the connection, [ok] tells whether the write
    of the greeting goes through. An error answer leaves the hub alone. *)
Definition sseEndpoint (ok : bool) (token : option string) (res : Client)
  (st : State) : Checked * State :=
  match nonEmpty token with
  | None => (Refused 401 "Access token required", st)
  | Some t =>
      match verify t with
      | None => (Refused 403 "Invalid or expired token", st)
      | Some userId => (Next userId, (subscribe ok userId res st).2)
      end
  end.

End Libraries.

End Auth.

(** ** The dashboard page: invoices on screen and the SSE messages *)

Module Dashboard.
Import Hub Job.

(** [{ ...invoice, status }] *)
Definition withStatus (st : Status) (invoice : Invoice) : Invoice :=
  {| _id := _id invoice; userId := userId invoice; clientName := clientName invoice;
     clientEmail := clientEmail invoice; invoiceNumber := invoiceNumber invoice;
     status := st; pdfPath := pdfPath invoice |}.

(** The state update of [eventSource.onmessage] (the toasts are left out):
    [prev.map(invoice => invoice._id === data.invoiceId ? {...} : invoice)]. *)
Definition onMessage (data : Event) (prev : list Invoice) : list Invoice :=
  match data with
  | InvoiceReady invoiceId =>
      map (fun invoice =>
             if String.eqb (_id invoice) invoiceId
             then withStatus ready invoice else invoice) prev
  | InvoiceFailed invoiceId =>
      map (fun invoice =>
             if String.eqb (_id invoice) invoiceId
             then withStatus failed invoice else invoice) prev
  | Connected => prev
  end.

(** [data.invoiceId] of a message that announces a status. *)
Definition announcedId (data : Event) : option string :=
  match data with
  | InvoiceReady invoiceId | InvoiceFailed invoiceId => Some invoiceId
  | Connected => None
  end.

(** The state update of [handleCreateInvoice] on a 201 answer. *)
Definition onCreated (newInvoice : Invoice) (prev : list Invoice) : list Invoice :=
  newInvoice :: prev.

End Dashboard.

(** ** The avatar colour: [getGradientFromEmail] *)

Module Avatar.

(** The conversion of a number to a signed 32-bit integer that the bit
    operators apply to their operands. *)
Definition toInt32 (x : Z) : Z := (x + 2147483648) mod 4294967296 - 2147483648.

Definition gradients : list string :=
  [ "from-purple-500 to-pink-500"; "from-blue-500 to-cyan-500";
    "from-green-500 to-teal-500"; "from-yellow-500 to-orange-500";
    "from-red-500 to-pink-500"; "from-indigo-500 to-purple-500";
    "from-cyan-500 to-blue-500"; "from-teal-500 to-green-500" ]%string.

(** The callback of [reduce]: [a = (a << 5) - a + b.charCodeAt(0); return a & a];
    [b] is the code unit. The subtraction and the addition are exact on
    numbers of this size. *)
Definition hashStep (a b : Z) : Z :=
  let a1 := toInt32 (Z.shiftl (toInt32 a) 5) - a + b in
  Z.land (toInt32 a1) (toInt32 a1).

(** [email.split("").reduce(..., 0)], the email given by its UTF-16 code
    units. *)
Definition hashOf (email : list Z) : Z := fold_left hashStep email 0.

(** [gradients[Math.abs(hash) % gradients.length]]; [None] is [undefined]. *)
Definition getGradientFromEmail (email : list Z) : option string :=
  gradients !! Z.to_nat (Z.abs (hashOf email) mod Z.of_nat (length gradients)).

End Avatar.

(** ** The invoice form: line items and totals *)

Module Form.

Inductive Field := fDescription | fQuantity | fRate.

(** [/^[0-9]$/.test(key)] *)
Definition isDigitKey (key : string) : bool :=
  match key with
  | String c EmptyString =>
      (48 <=? Ascii.nat_of_ascii c)%nat && (Ascii.nat_of_ascii c <=? 57)%nat
  | _ => false
  end.

Section Numbers.

(** JavaScript numbers and the operations the form applies to them. *)
Variable num : Type.
Variable add mul : num -> num -> num.
Variable zero one : num.
Variable parseInt parseFloat : string -> num.
(** [x > 0] *)
Variable positive : num -> bool.

Record LineItem := {
  description : string;
  quantity : num;
  rate : num;
  amount : num;
  quantityTouched : bool;
  rateTouched : bool
}.

(** The row [addLineItem] appends, which is also the first row of the form. *)
Definition blankItem : LineItem :=
  {| description := ""; quantity := one; rate := zero; amount := zero;
     quantityTouched := false; rateTouched := false |}.

Definition setDescription (v : string) (i : LineItem) : LineItem :=
  {| description := v; quantity := quantity i; rate := rate i; amount := amount i;
     quantityTouched := quantityTouched i; rateTouched := rateTouched i |}.
Definition setQuantity (v : num) (i : LineItem) : LineItem :=
  {| description := description i; quantity := v; rate := rate i; amount := amount i;
     quantityTouched := quantityTouched i; rateTouched := rateTouched i |}.
Definition setRate (v : num) (i : LineItem) : LineItem :=
  {| description := description i; quantity := quantity i; rate := v; amount := amount i;
     quantityTouched := quantityTouched i; rateTouched := rateTouched i |}.
Definition setQuantityTouched (i : LineItem) : LineItem :=
  {| description := description i; quantity := quantity i; rate := rate i; amount := amount i;
     quantityTouched := true; rateTouched := rateTouched i |}.
Definition setRateTouched (i : LineItem) : LineItem :=
  {| description := description i; quantity := quantity i; rate := rate i; amount := amount i;
     quantityTouched := quantityTouched i; rateTouched := true |}.

(** [item.amount = item.quantity * item.rate] *)
Definition recompute (i : LineItem) : LineItem :=
  {| description := description i; quantity := quantity i; rate := rate i;
     amount := mul (quantity i) (rate i);
     quantityTouched := quantityTouched i; rateTouched := rateTouched i |}.

(** [handleLineItemChange(index, field, value)] with the string of the
    input. [None] stands for an index outside the array, which the rendered
    rows never pass (the source then throws for quantity and rate, and
    stores a row without numbers for description). *)
Definition handleLineItemChange (index : nat) (field : Field) (value : string)
  (lineItems : list LineItem) : option (list LineItem) :=
  match lineItems !! index with
  | None => None
  | Some item =>
      let item1 :=
        match field with
        | fQuantity =>
            if negb (quantityTouched item)
            then setQuantityTouched (setQuantity (parseInt value) item)
            else setQuantity (parseInt value) item
        | fRate =>
            if negb (rateTouched item)
            then setRateTouched (setRate (parseFloat value) item)
            else setRate (parseFloat value) item
        | fDescription => setDescription value item
        end in
      let item2 :=
        match field with
        | fQuantity | fRate => recompute item1
        | fDescription => item1
        end in
      Some (<[index := item2]> lineItems)
  end.

(** [handleQuantityKeyDown(e, index)]: [key] is [e.key], [modifier] tells
    whether Ctrl, Alt or Meta is held. *)
Definition handleQuantityKeyDown (key : string) (modifier : bool) (index : nat)
  (lineItems : list LineItem) : option (list LineItem) :=
  match lineItems !! index with
  | None => None
  | Some item =>
      if negb (quantityTouched item) && isDigitKey key && negb modifier
      then Some (<[index := recompute (setQuantityTouched (setQuantity (parseInt key) item))]>
                   lineItems)
      else Some lineItems
  end.

(** [handleRateKeyDown(e, index)] *)
Definition handleRateKeyDown (key : string) (modifier : bool) (index : nat)
  (lineItems : list LineItem) : option (list LineItem) :=
  match lineItems !! index with
  | None => None
  | Some item =>
      if negb (rateTouched item) && isDigitKey key && negb modifier
      then Some (<[index := recompute (setRateTouched (setRate (parseInt key) item))]>
                   lineItems)
      else Some lineItems
  end.

(** [addLineItem] *)
Definition addLineItem (lineItems : list LineItem) : list LineItem :=
  lineItems ++ [blankItem].

(** [lineItems.filter((_, i) => i !== index)] *)
Fixpoint filterOut (index i : nat) (l : list LineItem) : list LineItem :=
  match l with
  | [] => []
  | x :: rest =>
      if Nat.eqb i index then filterOut index (S i) rest
      else x :: filterOut index (S i) rest
  end.

(** [removeLineItem(index)] *)
Definition removeLineItem (index : nat) (lineItems : list LineItem) : list LineItem :=
  if (1 <? length lineItems)%nat then filterOut index 0 lineItems else lineItems.

(** [calculateSubtotal] *)
Definition calculateSubtotal (lineItems : list LineItem) : num :=
  fold_left (fun sum item => add sum (amount item)) lineItems zero.

(** [calculateTotal] *)
Definition calculateTotal (lineItems : list LineItem) (tax : num) : num :=
  add (calculateSubtotal lineItems) tax.

(** A line item as it is submitted. *)
Record CleanItem := {
  cDescription : string;
  cQuantity : num;
  cRate : num;
  cAmount : num
}.

Definition clean (item : LineItem) : CleanItem :=
  {| cDescription := description item; cQuantity := quantity item;
     cRate := rate item; cAmount := amount item |}.

(** [item.description && item.quantity > 0] *)
Definition kept (item : CleanItem) : bool :=
  match cDescription item with
  | EmptyString => false
  | _ => positive (cQuantity item)
  end.

Record FormData := {
  fClientName : string;
  fClientEmail : string;
  fInvoiceNumber : string;
  fIssueDate : string;
  fDueDate : string
}.

Record InvoiceData := {
  dForm : FormData;
  dLineItems : list CleanItem;
  dSubtotal : num;
  dTax : num;
  dTotal : num
}.

(** [handleSubmit]: what is passed to [onSubmit]. *)
Definition handleSubmit (formData : FormData) (lineItems : list LineItem) (tax : num)
  : InvoiceData :=
  {| dForm := formData;
     dLineItems := List.filter kept (map clean lineItems);
     dSubtotal := calculateSubtotal lineItems;
     dTax := tax;
     dTotal := calculateTotal lineItems tax |}.

(** What the user does to the rows of the form. *)
Inductive Action :=
| Change (index : nat) (field : Field) (value : string)
| QuantityKey (key : string) (modifier : bool) (index : nat)
| RateKey (key : string) (modifier : bool) (index : nat)
| AddItem
| RemoveItem (index : nat).

(** The rows after an action. [None]: the action names a row that is not on
    screen, which the rendered form does not offer. *)
Definition act (a : Action) (lineItems : list LineItem) : option (list LineItem) :=
  match a with
  | Change index field value => handleLineItemChange index field value lineItems
  | QuantityKey key modifier index => handleQuantityKeyDown key modifier index lineItems
  | RateKey key modifier index => handleRateKeyDown key modifier index lineItems
  | AddItem => Some (addLineItem lineItems)
  | RemoveItem index => Some (removeLineItem index lineItems)
  end.

(** The rows after a sequence of actions on the form as it opens. *)
Definition rowsAfter (actions : list Action) : option (list LineItem) :=
  fold_left (fun rows a =>
               match rows with
               | Some lineItems => act a lineItems
               | None => None
               end)
            actions (Some [blankItem]).

(** The amount shown for a row is the product of its quantity and rate. *)
Definition consistent (item : LineItem) : Prop :=
  amount item = mul (quantity item) (rate item).

End Numbers.

End Form.

(** * Properties *)

(** ** The rate limiter *)

Module RateLimiterFacts.
Import RateLimiter.

Lemma ceilDiv_pos (d : Z) : 0 < d -> 0 < ceilDiv d 1000.
Proof.
  intros Hd. unfold ceilDiv.
  assert (- d / 1000 < 0) by (apply Z.div_lt_upper_bound; lia).
  lia.
Qed.

Lemma ceilDiv_le_60 (d : Z) : d <= 60000 -> ceilDiv d 1000 <= 60.
Proof.
  intros Hd. unfold ceilDiv.
  assert (- 60 <= - d / 1000) by (apply Z.div_le_lower_bound; lia).
  lia.
Qed.

(** A call that finds a stored counter whose window has not passed. *)
Lemma check_stored db userId k R now :
  db !! userId = Some {| count := k; resetTime := R |} ->
  now <= R ->
  checkRateLimit db userId now =
    if k >=? 5
    then (Deny (ceilDiv (R - now) 1000), db)
    else (Allow, <[userId := {| count := k + 1; resetTime := R |}]> db).
Proof.
  intros Hdb Hnow. unfold checkRateLimit, fetched, findOrNew, resetIfPassed.
  rewrite Hdb. cbn [resetTime count].
  rewrite Z.gtb_ltb. destruct (Z.ltb_spec R now); [lia |]. reflexivity.
Qed.

(** A call that opens a window: no counter yet, or one whose window has
    passed. *)
Lemma check_fresh db userId now :
  count (fetched db userId now) = 0 ->
  checkRateLimit db userId now =
    (Allow, <[userId := {| count := 1; resetTime := windowEnd db userId now |}]> db).
Proof.
  intros H0. unfold checkRateLimit, windowEnd, bump. rewrite H0. reflexivity.
Qed.

Lemma runChecks_length db userId times :
  length (runChecks db userId times).1 = length times.
Proof.
  revert db. induction times as [|t ts IH]; intros db; [reflexivity |].
  cbn [runChecks]. destruct (checkRateLimit db userId t) as [d db1].
  specialize (IH db1). destruct (runChecks db1 userId ts) as [ds db2].
  cbn in *. congruence.
Qed.

(** Calls inside the window of a stored counter: the first [5 - k] are
    admitted, the others refused, and the counter ends at [k] plus the
    number of admissions. *)
Lemma run_in_window times : forall db userId k R,
  db !! userId = Some {| count := k; resetTime := R |} ->
  Forall (fun t => t <= R) times ->
  let '(ds, db1) := runChecks db userId times in
  (length (filter isAllow ds) <= Z.to_nat (5 - k))%nat /\
  (forall i t, times !! i = Some t -> 5 <= k + Z.of_nat i ->
     ds !! i = Some (Deny (ceilDiv (R - t) 1000))) /\
  (forall i t, times !! i = Some t -> k + Z.of_nat i < 5 -> ds !! i = Some Allow) /\
  db1 !! userId =
    Some {| count := k + Z.of_nat (length (filter isAllow ds)); resetTime := R |}.
Proof.
  induction times as [|t ts IH]; intros db userId k R Hdb Hall.
  - cbn. repeat split; try (intros i t' Hi; discriminate Hi); try lia.
    rewrite Hdb. do 2 f_equal. lia.
  - apply Forall_cons in Hall as [Ht Hts]. cbn [runChecks].
    rewrite (check_stored _ _ _ _ _ Hdb Ht).
    rewrite Z.geb_leb. destruct (Z.leb_spec 5 k) as [E|E].
    + specialize (IH db userId k R Hdb Hts).
      destruct (runChecks db userId ts) as [ds db2].
      destruct IH as (Hn & Hdeny & Hallow & Hfin).
      rewrite filter_cons_False by (cbn; tauto).
      repeat split.
      * exact Hn.
      * intros [|i] t' Hi Hge; cbn in *.
        -- congruence.
        -- apply Hdeny; [exact Hi | lia].
      * intros [|i] t' Hi Hlt; cbn in *; [lia |].
        apply Hallow with t'; [exact Hi | lia].
      * exact Hfin.
    + assert (Hdb1 : <[userId := {| count := k + 1; resetTime := R |}]> db !! userId
                     = Some {| count := k + 1; resetTime := R |})
        by apply lookup_insert_eq.
      specialize (IH _ userId (k + 1) R Hdb1 Hts).
      destruct (runChecks _ userId ts) as [ds db2].
      destruct IH as (Hn & Hdeny & Hallow & Hfin).
      rewrite filter_cons_True by (cbn; tauto). cbn [length].
      repeat split.
      * lia.
      * intros [|i] t' Hi Hge; cbn in *; [lia |].
        apply Hdeny; [exact Hi | lia].
      * intros [|i] t' Hi Hlt; cbn in *; [reflexivity |].
        apply Hallow with t'; [exact Hi | lia].
      * rewrite Hfin. do 2 f_equal. lia.
Qed.

Lemma inWindow_le R t : inWindow R t -> t <= R.
Proof. unfold inWindow. lia. Qed.

Lemma inWindow_timeLeft R t :
  inWindow R t -> 0 < ceilDiv (R - t) 1000 <= 60.
Proof.
  unfold inWindow. intros H. split.
  - apply ceilDiv_pos. lia.
  - apply ceilDiv_le_60. lia.
Qed.

(** The counter in memory is the stored one, or a fresh one with count 0. *)
Lemma fetched_cases db userId now :
  (exists k, db !! userId = Some {| count := k; resetTime := windowEnd db userId now |}
             /\ count (fetched db userId now) = k)
  \/ (count (fetched db userId now) = 0
      /\ windowEnd db userId now = now + 60000).
Proof.
  unfold windowEnd, fetched, findOrNew, resetIfPassed.
  destruct (db !! userId) as [[k R]|] eqn:Hdb; cbn [resetTime count].
  - rewrite Z.gtb_ltb. destruct (Z.ltb_spec R now); cbn [resetTime count].
    + right. split; reflexivity.
    + left. exists k. split; reflexivity.
  - right. rewrite Z.gtb_ltb.
    destruct (Z.ltb_spec (now + 60000) now); cbn [resetTime count];
      split; reflexivity.
Qed.

(** C1. For every user and every sequence of rate-limiter checks whose
    times all fall within one 60-second window of the limiter (the window
    [resetTime - 60 s, resetTime) the first call runs in), every call is
    answered, at most 5 calls are admitted, and every call from the 6th
    onward is refused with [timeLeft = ceil((resetTime - now) / 1000)],
    which is strictly positive (and at most 60). *)
Theorem window_admits_at_most_five db userId t0 ts :
  counterWf db userId ->
  Forall (inWindow (windowEnd db userId t0)) (t0 :: ts) ->
  let ds := (runChecks db userId (t0 :: ts)).1 in
  length ds = length (t0 :: ts) /\
  (length (filter isAllow ds) <= 5)%nat /\
  forall i t, (5 <= i)%nat -> (t0 :: ts) !! i = Some t ->
    ds !! i = Some (Deny (ceilDiv (windowEnd db userId t0 - t) 1000)) /\
    0 < ceilDiv (windowEnd db userId t0 - t) 1000 <= 60.
Proof.
  intros Hwf Hwin ds. subst ds. set (R := windowEnd db userId t0) in *.
  split; [apply runChecks_length |].
  assert (Hle : Forall (fun t => t <= R) (t0 :: ts))
    by (eapply Forall_impl; [exact Hwin | apply inWindow_le]).
  destruct (fetched_cases db userId t0) as [(k & Hdb & _) | (H0 & _)].
  - fold R in Hdb. pose proof (Hwf _ Hdb) as Hk. cbn [count] in Hk.
    pose proof (run_in_window (t0 :: ts) db userId k R Hdb Hle) as Hrun.
    destruct (runChecks db userId (t0 :: ts)) as [ds db1]. cbn [fst].
    destruct Hrun as (Hn & Hdeny & _ & _). split; [lia |].
    intros i t Hi Ht. split.
    + apply Hdeny; [exact Ht | lia].
    + apply inWindow_timeLeft.
      rewrite Forall_lookup in Hwin. exact (Hwin i t Ht).
  - cbn [runChecks]. rewrite (check_fresh _ _ _ H0). fold R.
    apply Forall_cons in Hle as [_ Hle].
    pose proof (run_in_window ts (<[userId := {| count := 1; resetTime := R |}]> db)
                  userId 1 R (lookup_insert_eq _ _ _) Hle) as Hrun.
    destruct (runChecks _ userId ts) as [ds db1]. cbn [fst].
    destruct Hrun as (Hn & Hdeny & _ & _).
    rewrite filter_cons_True by (cbn; tauto). cbn [length].
    split; [cbn in Hn; lia |].
    intros [|i] t Hi Ht; [lia |]. cbn in Ht. cbn [lookup list_lookup]. split.
    + apply Hdeny; [exact Ht | lia].
    + apply inWindow_timeLeft.
      rewrite Forall_lookup in Hwin. exact (Hwin (S i) t Ht).
Qed.

Lemma window_admits_at_most_five_witness :
  let db : gmap string RateLimit := {[ "alice"%string := {| count := 3; resetTime := 100000 |} ]} in
  let ds := (runChecks db "alice" [40000; 41000; 42000; 50000; 50000; 99001; 99999]).1 in
  length ds = 7%nat /\
  (length (filter isAllow ds) <= 5)%nat /\
  forall i t, (5 <= i)%nat ->
    [40000; 41000; 42000; 50000; 50000; 99001; 99999] !! i = Some t ->
    ds !! i = Some (Deny (ceilDiv (windowEnd db "alice" 40000 - t) 1000)) /\
    0 < ceilDiv (windowEnd db "alice" 40000 - t) 1000 <= 60.
Proof.
  intros db.
  apply (window_admits_at_most_five db "alice" 40000
           [41000; 42000; 50000; 50000; 99001; 99999]).
  - intros c Hc. subst db. apply lookup_singleton_Some in Hc as [_ <-]. cbn. lia.
  - repeat constructor; vm_compute; intuition discriminate.
Defined.

(** Non-negative counts are an invariant of the middleware. *)
Lemma counterWf_empty userId : counterWf ∅ userId.
Proof. intros c Hc. rewrite lookup_empty in Hc. discriminate. Qed.

Lemma counterWf_check db userId caller now :
  counterWf db userId -> counterWf (checkRateLimit db caller now).2 userId.
Proof.
  intros Hwf. unfold checkRateLimit.
  destruct (count (fetched db caller now) >=? 5); cbn [snd]; [exact Hwf |].
  intros c. destruct (decide (caller = userId)) as [-> | Hne].
  - rewrite lookup_insert_eq. intros [= <-]. cbn [bump count].
    destruct (fetched_cases db userId now) as [(k & Hdb & Hk) | (H0 & _)].
    + pose proof (Hwf _ Hdb) as Hpos. cbn [count] in Hpos. lia.
    + lia.
  - rewrite lookup_insert_ne by exact Hne. apply Hwf.
Qed.

(** After calls inside one window the stored count is the count the first
    call had in memory plus the number of admissions. *)
Lemma run_window_count db userId t0 ts :
  Forall (inWindow (windowEnd db userId t0)) (t0 :: ts) ->
  let '(ds, db1) := runChecks db userId (t0 :: ts) in
  db1 !! userId =
    Some {| count := count (fetched db userId t0)
                     + Z.of_nat (length (filter isAllow ds));
            resetTime := windowEnd db userId t0 |}.
Proof.
  intros Hwin. set (R := windowEnd db userId t0) in *.
  assert (Hle : Forall (fun t => t <= R) (t0 :: ts))
    by (eapply Forall_impl; [exact Hwin | apply inWindow_le]).
  destruct (fetched_cases db userId t0) as [(k & Hdb & Hk) | (H0 & _)].
  - fold R in Hdb. rewrite Hk.
    pose proof (run_in_window (t0 :: ts) db userId k R Hdb Hle) as Hrun.
    destruct (runChecks db userId (t0 :: ts)) as [ds db1].
    destruct Hrun as (_ & _ & _ & Hfin). exact Hfin.
  - cbn [runChecks]. rewrite (check_fresh _ _ _ H0). fold R. rewrite H0.
    apply Forall_cons in Hle as [_ Hle].
    pose proof (run_in_window ts (<[userId := {| count := 1; resetTime := R |}]> db)
                  userId 1 R (lookup_insert_eq _ _ _) Hle) as Hrun.
    destruct (runChecks _ userId ts) as [ds db1].
    destruct Hrun as (_ & _ & _ & Hfin).
    rewrite filter_cons_True by (cbn; tauto). cbn [length].
    rewrite Hfin. do 2 f_equal. lia.
Qed.

(** C5, as the code has it. For every call at time [now] that finds a
    counter whose window has passed, [now > resetTime] (strictly), the call
    first resets the counter in memory to count 0 and
    [resetTime = now + 60000]; it is therefore admitted and stores count 1
    with the new [resetTime], and of the calls that follow inside the new
    window the first four are admitted as well (five in all) and the later
    ones refused. *)
Theorem reset_after_window_passed db userId c now ts :
  db !! userId = Some c ->
  resetTime c < now ->
  Forall (inWindow (now + 60000)) ts ->
  fetched db userId now = {| count := 0; resetTime := now + 60000 |} /\
  checkRateLimit db userId now =
    (Allow, <[userId := {| count := 1; resetTime := now + 60000 |}]> db) /\
  forall i t, (now :: ts) !! i = Some t ->
    (runChecks db userId (now :: ts)).1 !! i =
      Some (if (i <? 5)%nat then Allow
            else Deny (ceilDiv (now + 60000 - t) 1000)).
Proof.
  intros Hdb Hpassed Hwin.
  assert (Hf : fetched db userId now = {| count := 0; resetTime := now + 60000 |}).
  { unfold fetched, findOrNew, resetIfPassed. rewrite Hdb.
    rewrite Z.gtb_ltb. destruct (Z.ltb_spec (resetTime c) now); [reflexivity | lia]. }
  assert (Hc : checkRateLimit db userId now =
    (Allow, <[userId := {| count := 1; resetTime := now + 60000 |}]> db)).
  { rewrite check_fresh by (rewrite Hf; reflexivity).
    unfold windowEnd. rewrite Hf. reflexivity. }
  split; [exact Hf |]. split; [exact Hc |].
  cbn [runChecks]. rewrite Hc.
  assert (Hle : Forall (fun t => t <= now + 60000) ts)
    by (eapply Forall_impl; [exact Hwin | apply inWindow_le]).
  pose proof (run_in_window ts
                (<[userId := {| count := 1; resetTime := now + 60000 |}]> db)
                userId 1 (now + 60000)
                (lookup_insert_eq _ _ _) Hle) as Hrun.
  destruct (runChecks _ userId ts) as [ds db1]. cbn [fst].
  destruct Hrun as (_ & Hdeny & Hallow & _).
  intros [|i] t Ht; [reflexivity |]. cbn in Ht. cbn [lookup list_lookup].
  destruct (Nat.ltb_spec (S i) 5).
  - apply Hallow with t; [exact Ht | lia].
  - apply Hdeny; [exact Ht | lia].
Qed.

Lemma reset_after_window_passed_witness :
  let c := {| count := 5; resetTime := 1000 |} in
  let db : gmap string RateLimit := {[ "alice"%string := c ]} in
  fetched db "alice" 1001 = {| count := 0; resetTime := 61001 |} /\
  checkRateLimit db "alice" 1001 =
    (Allow, <["alice"%string := {| count := 1; resetTime := 61001 |}]> db) /\
  forall i t, [1001; 1002; 2000; 3000; 60000; 61000] !! i = Some t ->
    (runChecks db "alice" [1001; 1002; 2000; 3000; 60000; 61000]).1 !! i =
      Some (if (i <? 5)%nat then Allow else Deny (ceilDiv (1001 + 60000 - t) 1000)).
Proof.
  intros c db.
  apply (reset_after_window_passed db "alice" c 1001 [1002; 2000; 3000; 60000; 61000]).
  - reflexivity.
  - cbn. lia.
  - repeat constructor; vm_compute; intuition discriminate.
Defined.

(** C5 at the boundary instant: a call at [now = resetTime] meets
    [now >= resetTime], yet the counter is not reset and the call is refused
    with 0 seconds left. *)
Lemma boundary_instant_no_reset :
  let c := {| count := 5; resetTime := 1000 |} in
  let db : gmap string RateLimit := {[ "alice"%string := c ]} in
  1000 >= resetTime c /\
  fetched db "alice" 1000 <> {| count := 0; resetTime := 1000 + 60000 |} /\
  checkRateLimit db "alice" 1000 = (Deny 0, db).
Proof.
  cbn zeta. split; [cbn; lia |]. split.
  - vm_compute. discriminate.
  - vm_compute. reflexivity.
Qed.

(** End-to-end scenario 2: a user without a counter calls six times within ten
    seconds; calls 1 to 5 are admitted, call 6 is refused with 60 seconds
    left. *)
Example six_calls_in_ten_seconds :
  (runChecks ∅ "alice" [0; 2000; 4000; 6000; 8000; 9999]).1
  = [Allow; Allow; Allow; Allow; Allow; Deny 51].
Proof. vm_compute. reflexivity. Qed.

(** The window is the limiter's own: ten calls less than 60 seconds apart
    are all admitted when the counter's window ends between them. *)
Example ten_calls_across_two_windows :
  let db : gmap string RateLimit := {[ "alice"%string := {| count := 0; resetTime := 1000 |} ]} in
  (runChecks db "alice" [990; 991; 992; 993; 994; 1001; 1002; 1003; 1004; 1005]).1
  = [Allow; Allow; Allow; Allow; Allow; Allow; Allow; Allow; Allow; Allow].
Proof. vm_compute. reflexivity. Qed.

End RateLimiterFacts.

(** ** Interleaved checks *)

Module RaceFacts.
Import RateLimiter Race.

(** A task that takes its two turns with nothing in between is the
    sequential middleware. *)
Lemma uninterrupted_is_checkRateLimit db userId now :
  runSchedule [0; 0]%nat db [Fetching userId now] =
    let '(d, db1) := checkRateLimit db userId now in (db1, [Done d]).
Proof.
  unfold checkRateLimit. cbn.
  destruct (count (fetched db userId now) >=? 5); reflexivity.
Qed.

(** C8. One slot is left in the window (count 4) and two requests of the
    same user are in flight. When both fetch before either saves, both are
    admitted and the stored count ends at 5: the increment is a
    read-then-write of the application. Taken one after the other, the
    second is refused. *)
Theorem double_admit_last_slot :
  let db : gmap string RateLimit :=
    {[ "alice"%string := {| count := 4; resetTime := 60000 |} ]} in
  let tasks := [Fetching "alice" 1000; Fetching "alice" 1000] in
  runSchedule [0; 1; 0; 1]%nat db tasks =
    (<["alice"%string := {| count := 5; resetTime := 60000 |}]> db,
     [Done Allow; Done Allow]) /\
  runSchedule [0; 0; 1; 1]%nat db tasks =
    (<["alice"%string := {| count := 5; resetTime := 60000 |}]> db,
     [Done Allow; Done (Deny 59)]).
Proof. split; vm_compute; reflexivity. Qed.

End RaceFacts.

(** ** The notification hub *)

Module HubFacts.
Import Hub.

(** C7. [sendSSEUpdate] never throws. For a user without a registered
    handle it leaves the registry and the connections as they are: nothing
    is written, nothing is kept for later. For a user with a handle it
    writes the event to that handle once and to no other; if the write
    throws, nothing is delivered and the handle is removed. *)
Theorem sendSSEUpdate_best_effort ok userId data st :
  (sendSSEUpdate ok userId data st).1 = Returned /\
  (sseClients st !! userId = None ->
     (sendSSEUpdate ok userId data st).2 = st) /\
  (forall client, sseClients st !! userId = Some client ->
     let st1 := (sendSSEUpdate ok userId data st).2 in
     (ok = true /\ wire st1 = wire st ++ [(client, data)]
        /\ sseClients st1 = sseClients st)
     \/ (ok = false /\ wire st1 = wire st
        /\ sseClients st1 = delete userId (sseClients st))).
Proof.
  unfold sendSSEUpdate, write.
  destruct (sseClients st !! userId) as [client|] eqn:Hc.
  - destruct ok; cbn.
    + split; [reflexivity |]. split; [discriminate |].
      intros c' [= <-]. left. auto.
    + split; [reflexivity |]. split; [discriminate |].
      intros c' [= <-]. right. auto.
  - split; [reflexivity |]. split; [reflexivity | discriminate].
Qed.

Lemma sendSSEUpdate_best_effort_witness :
  let st := {| sseClients := {[ "alice"%string := 7%nat ]}; wire := [(7%nat, Connected)] |} in
  (sendSSEUpdate true "bob" (InvoiceReady "inv1") st).2 = st /\
  ((true = true /\
    wire (sendSSEUpdate true "alice" (InvoiceReady "inv1") st).2
      = wire st ++ [(7%nat, InvoiceReady "inv1")] /\
    sseClients (sendSSEUpdate true "alice" (InvoiceReady "inv1") st).2 = sseClients st)
   \/ (true = false /\
    wire (sendSSEUpdate true "alice" (InvoiceReady "inv1") st).2 = wire st /\
    sseClients (sendSSEUpdate true "alice" (InvoiceReady "inv1") st).2
      = delete "alice"%string (sseClients st))).
Proof.
  intros st. split.
  - apply (sendSSEUpdate_best_effort true "bob" (InvoiceReady "inv1") st).
    reflexivity.
  - apply (sendSSEUpdate_best_effort true "alice" (InvoiceReady "inv1") st).
    reflexivity.
Defined.

(** An event published while nobody listens is not replayed to a later
    subscriber: the new connection receives the greeting only. *)
Lemma dropped_event_is_not_replayed ok userId data res st :
  sseClients st !! userId = None ->
  subscribe true userId res (sendSSEUpdate ok userId data st).2 =
    (Returned,
     {| sseClients := <[userId := res]> (sseClients st);
        wire := wire st ++ [(res, Connected)] |}).
Proof.
  intros Hnone. unfold sendSSEUpdate. rewrite Hnone. reflexivity.
Qed.

End HubFacts.

(** ** The job's completion paths *)

Module JobFacts.
Import Hub Job.



(** The invariant holds for the job in memory after a run in which the
    renderer throws, or in which the [save] of [generatePDF] resolves. *)
Lemma runJob_keeps_invariant e inv s :
  pdfPath inv = None ->
  written (render e) = None \/ readySaved e = true ->
  artifactIffReady (runJob e inv s).1.2.
Proof.
  intros Hnone Hpath. unfold runJob, jobTry, jobCatch, generatePDF.
  destruct (written (render e)) as [buffer|].
  - destruct Hpath as [Hw | Hs]; [discriminate |]. rewrite Hs.
    unfold sendSSEUpdate, write. cbn.
    destruct (sseClients (hub s) !! userId inv); [destruct (pushed e) |];
      cbn; (split; [reflexivity | eauto]).
  - destruct (failedSaved e).
    + unfold sendSSEUpdate, write. cbn.
      destruct (sseClients (hub s) !! userId inv); [destruct (pushed e) |];
        cbn; unfold artifactIffReady; cbn; rewrite Hnone;
        (split; [intros [? ?]; discriminate | discriminate]).
    + cbn. unfold artifactIffReady. cbn. rewrite Hnone.
      split; [intros [? ?]; discriminate | discriminate].
Qed.

(** C3. The renderer succeeds and the PDF is written, the [save] at the end
    of [generatePDF] rejects, and the [save] of the [catch] block resolves:
    the stored job is failed and carries the artifact reference that
    [generatePDF] assigned before its [save]. *)
Theorem failed_job_keeps_pdfPath :
  let inv := {| _id := "inv1"; userId := "alice"; clientName := "Acme";
                clientEmail := "billing@acme.test"; invoiceNumber := "INV-001";
                status := processing; pdfPath := None |} in
  let s := {| rateLimits := ∅; invoices := {[ "inv1"%string := inv ]};
              files := ∅; hub := {| sseClients := ∅; wire := [] |} |} in
  let e := {| render := {| toBlob := Some "%PDF-1.3"%string; fallback := None |};
              readySaved := false; failedSaved := true; pushed := true |} in
  let '(c, inv1, s1) := runJob e inv s in
  artifactIffReady inv /\
  c = Returned /\
  invoices s1 !! "inv1"%string = Some inv1 /\
  status inv1 = failed /\
  pdfPath inv1 = Some "invoice-inv1.pdf"%string /\
  ~ artifactIffReady inv1.
Proof.
  cbn. unfold artifactIffReady. cbn.
  repeat split; try reflexivity; try discriminate.
  - intros [? ?]; discriminate.
  - intros [H _]. specialize (H (mk_is_Some _ _ eq_refl)). discriminate.
Qed.

End JobFacts.

(** ** The routes *)

Module ApiFacts.
Import RateLimiter Hub Job Api.
Import RateLimiterFacts.

Lemma setRateLimits_same s : setRateLimits (rateLimits s) s = s.
Proof. destruct s. reflexivity. Qed.

(** A job is created without an artifact reference, in status processing. *)
Lemma newInvoice_invariant oid userId b :
  status (newInvoice oid userId b) = processing /\
  artifactIffReady (newInvoice oid userId b).
Proof.
  split; [reflexivity |]. unfold artifactIffReady. cbn.
  split; [intros [? ?]; discriminate | discriminate].
Qed.

(** An id that the cast refuses is answered 500, whatever is stored. *)
Lemma malformed_id_answer isObjectId validHeader s caller id :
  isObjectId id = false ->
  download isObjectId validHeader s caller id = Json 500 "Internal server error".
Proof. intros H. unfold download, findOne. rewrite H. reflexivity. Qed.




(** C6. Whenever the limiter refuses, nothing stored changes: the
    collection of counters the middleware returns is the one it was given,
    and the request ends with 429 on an unchanged server, so no invoice is
    created. *)
Theorem deny_mutates_nothing saved oid userId now b s timeLeft :
  (checkRateLimit (rateLimits s) userId now).1 = Deny timeLeft ->
  (checkRateLimit (rateLimits s) userId now).2 = rateLimits s /\
  postInvoice saved oid userId now b s = (TooManyRequests timeLeft, s).
Proof.
  unfold postInvoice, checkRateLimit.
  destruct (count (fetched (rateLimits s) userId now) >=? 5); cbn [fst snd].
  - intros [= <-]. split; [reflexivity |].
    rewrite setRateLimits_same. reflexivity.
  - discriminate.
Qed.

Lemma deny_mutates_nothing_witness :
  let s := {| rateLimits := {[ "alice"%string := {| count := 5; resetTime := 60000 |} ]};
              invoices := ∅; files := ∅;
              hub := {| sseClients := ∅; wire := [] |} |} in
  let b := {| bClientName := "Acme"; bClientEmail := "billing@acme.test";
              bInvoiceNumber := "INV-006" |} in
  (checkRateLimit (rateLimits s) "alice" 9999).2 = rateLimits s /\
  postInvoice true "inv6" "alice" 9999 b s = (TooManyRequests 51, s).
Proof.
  intros s b.
  apply (deny_mutates_nothing true "inv6" "alice" 9999 b s 51).
  vm_compute. reflexivity.
Defined.

(** C9. A job that is ready and has its artifact reference set is still not
    downloadable when the file is missing from the [pdfs] directory: the
    route answers 404 'PDF file not found'. *)
Theorem ready_job_download_can_fail isObjectId validHeader s caller id inv p :
  findOne isObjectId (invoices s) id caller = Document inv ->
  status inv = ready ->
  pdfPath inv = Some p ->
  p <> ""%string ->
  files s !! p = None ->
  download isObjectId validHeader s caller id = Json 404 "PDF file not found".
Proof.
  intros Hf Hst Hp Hne Hfile. unfold download. rewrite Hf, Hst, Hp, Hfile.
  destruct p; [contradiction | reflexivity].
Qed.

(** The job ran to [ready], then the file was removed from the directory. *)
Lemma ready_job_download_can_fail_witness :
  let inv := newInvoice "64f1a2b3c4d5e6f708192a3b" "alice"
               {| bClientName := "Acme"; bClientEmail := "billing@acme.test";
                  bInvoiceNumber := "INV-001" |} in
  let s := {| rateLimits := ∅;
              invoices := {[ "64f1a2b3c4d5e6f708192a3b"%string := inv ]};
              files := ∅; hub := {| sseClients := ∅; wire := [] |} |} in
  let e := {| render := {| toBlob := Some "%PDF-1.3"%string; fallback := None |};
              readySaved := true; failedSaved := true; pushed := true |} in
  let s1 := (runJob e inv s).2 in
  let s2 := setFiles (delete "invoice-64f1a2b3c4d5e6f708192a3b.pdf"%string (files s1)) s1 in
  download hexId visible s1 "alice" "64f1a2b3c4d5e6f708192a3b"
    = Attachment "invoice-INV-001.pdf" "%PDF-1.3" /\
  download hexId visible s2 "alice" "64f1a2b3c4d5e6f708192a3b"
    = Json 404 "PDF file not found".
Proof.
  intros inv s e s1 s2. split; [reflexivity |].
  apply (ready_job_download_can_fail hexId visible s2 "alice"
           "64f1a2b3c4d5e6f708192a3b" (markReady inv)
           "invoice-64f1a2b3c4d5e6f708192a3b.pdf"%string).
  - reflexivity.
  - reflexivity.
  - reflexivity.
  - discriminate.
  - reflexivity.
Defined.

(** The creation route consults the limiter exactly as [runChecks] does, and
    every admitted request ends in 201 or in 500. *)
Lemma runPosts_checks userId ps : forall s,
  let '(rs, s1) := runPosts userId ps s in
  let '(ds, rl) := runChecks (rateLimits s) userId (map time ps) in
  rateLimits s1 = rl /\
  length (filter wasAdmitted rs) = length (filter isAllow ds) /\
  length (filter wasAdmitted rs)
    = (length (filter wasCreated rs) + length (filter creationFailed rs))%nat.
Proof.
  induction ps as [|p ps IH]; intros s; [cbn; auto |].
  cbn [runPosts map runChecks]. unfold postInvoice.
  destruct (checkRateLimit (rateLimits s) userId (time p)) as [[|timeLeft] rl1].
  - destruct (saved p).
    + specialize (IH (save (newInvoice (oid p) userId (body p)) (setRateLimits rl1 s))).
      cbn [save setInvoices setRateLimits rateLimits] in IH.
      destruct (runPosts userId ps _) as [rs s2].
      destruct (runChecks rl1 userId (map time ps)) as [ds rl2].
      destruct IH as (Hrl & Hadm & Hsum).
      rewrite (filter_cons_True wasAdmitted) by exact I.
      rewrite (filter_cons_True isAllow) by exact I.
      rewrite (filter_cons_True wasCreated) by exact I.
      rewrite (filter_cons_False creationFailed) by (intros []).
      cbn [length]. repeat split;
        [exact Hrl | exact (f_equal S Hadm) | exact (f_equal S Hsum)].
    + specialize (IH (setRateLimits rl1 s)).
      cbn [setRateLimits rateLimits] in IH.
      destruct (runPosts userId ps _) as [rs s2].
      destruct (runChecks rl1 userId (map time ps)) as [ds rl2].
      destruct IH as (Hrl & Hadm & Hsum).
      rewrite (filter_cons_True wasAdmitted) by exact I.
      rewrite (filter_cons_True isAllow) by exact I.
      rewrite (filter_cons_False wasCreated) by (intros []).
      rewrite (filter_cons_True creationFailed) by exact I.
      cbn [length]. rewrite Nat.add_succ_r. repeat split;
        [exact Hrl | exact (f_equal S Hadm) | exact (f_equal S Hsum)].
  - specialize (IH (setRateLimits rl1 s)).
    cbn [setRateLimits rateLimits] in IH.
    destruct (runPosts userId ps _) as [rs s2].
    destruct (runChecks rl1 userId (map time ps)) as [ds rl2].
    destruct IH as (Hrl & Hadm & Hsum).
    rewrite (filter_cons_False wasAdmitted) by (intros []).
    rewrite (filter_cons_False isAllow) by (intros []).
    rewrite (filter_cons_False wasCreated) by (intros []).
    rewrite (filter_cons_False creationFailed) by (intros []).
    repeat split; [exact Hrl | exact Hadm | exact Hsum].
Qed.

(** C10. For every user and every sequence of creation requests inside one
    window of the limiter, each admitted request ends in 201 (a job is
    created) or in 500 (the creation failed), and the stored count ends at
    the count the first call had in memory plus the number of admitted
    requests, failed creations included: no slot is given back. The jobs
    created are therefore at most the requests admitted. *)
Theorem admitted_slot_is_not_refunded userId p ps s :
  Forall (fun q => inWindow (windowEnd (rateLimits s) userId (time p)) (time q))
         (p :: ps) ->
  let rs := (runPosts userId (p :: ps) s).1 in
  let s1 := (runPosts userId (p :: ps) s).2 in
  let admittedN := length (filter wasAdmitted rs) in
  let createdN := length (filter wasCreated rs) in
  let failedN := length (filter creationFailed rs) in
  admittedN = (createdN + failedN)%nat /\
  (createdN <= admittedN)%nat /\
  rateLimits s1 !! userId =
    Some {| count := count (fetched (rateLimits s) userId (time p))
                     + Z.of_nat admittedN;
            resetTime := windowEnd (rateLimits s) userId (time p) |}.
Proof.
  intros Hwin. cbn zeta.
  pose proof (runPosts_checks userId (p :: ps) s) as Hlink.
  pose proof (run_window_count (rateLimits s) userId (time p) (map time ps)) as Hcnt.
  cbn [map] in Hlink.
  destruct (runPosts userId (p :: ps) s) as [rs s1].
  destruct (runChecks (rateLimits s) userId (time p :: map time ps)) as [ds rl].
  destruct Hlink as (Hrl & Hadm & Hsum). cbn [fst snd].
  split; [exact Hsum |]. split; [lia |].
  rewrite Hrl, Hadm. apply Hcnt.
  change (time p :: map time ps) with (map time (p :: ps)).
  apply Forall_fmap. exact Hwin.
Qed.

Lemma admitted_slot_is_not_refunded_witness :
  let b := {| bClientName := "Acme"; bClientEmail := "billing@acme.test";
              bInvoiceNumber := "INV-001" |} in
  let s := {| rateLimits := ∅; invoices := ∅; files := ∅;
              hub := {| sseClients := ∅; wire := [] |} |} in
  let ps := [ {| time := 1000; oid := "inv1"; body := b; saved := true |};
              {| time := 2000; oid := "inv2"; body := b; saved := false |};
              {| time := 3000; oid := "inv3"; body := b; saved := true |} ] in
  (runPosts "alice" ps s).1
    = [ Created (newInvoice "inv1" "alice" b);
        Json 500 "Internal server error";
        Created (newInvoice "inv3" "alice" b) ] /\
  rateLimits (runPosts "alice" ps s).2 !! "alice"%string
    = Some {| count := 3; resetTime := 61000 |}.
Proof.
  intros b s ps. split; [reflexivity |].
  destruct (admitted_slot_is_not_refunded "alice"
              {| time := 1000; oid := "inv1"; body := b; saved := true |}
              [ {| time := 2000; oid := "inv2"; body := b; saved := false |};
                {| time := 3000; oid := "inv3"; body := b; saved := true |} ] s)
    as (_ & _ & Hcount).
  - repeat constructor; vm_compute; intuition discriminate.
  - exact Hcount.
Defined.

End ApiFacts.

(** ** The rate limiter with several users, and after a refusal *)

Module TrafficFacts.
Import RateLimiter Race Traffic.
Import RateLimiterFacts.

(** The decision for a user depends on that user's counter only, and so does
    the counter the call leaves. *)
Lemma check_agree db1 db2 userId now :
  db1 !! userId = db2 !! userId ->
  (checkRateLimit db1 userId now).1 = (checkRateLimit db2 userId now).1 /\
  (checkRateLimit db1 userId now).2 !! userId
    = (checkRateLimit db2 userId now).2 !! userId.
Proof.
  intros Heq. unfold checkRateLimit, fetched, findOrNew. rewrite Heq.
  destruct (count (resetIfPassed now _) >=? 5); cbn [fst snd].
  - split; [reflexivity | exact Heq].
  - split; [reflexivity |]. rewrite !lookup_insert_eq. reflexivity.
Qed.

(** A call of one user leaves the counters of the others as they are. *)
Lemma check_other db caller userId now :
  caller <> userId ->
  (checkRateLimit db caller now).2 !! userId = db !! userId.
Proof.
  intros Hne. unfold checkRateLimit.
  destruct (count (fetched db caller now) >=? 5); cbn [snd]; [reflexivity |].
  apply lookup_insert_ne. exact Hne.
Qed.

Lemma isolation_from db1 db2 userId calls :
  db1 !! userId = db2 !! userId ->
  decisionsOf userId calls (runCalls db1 calls).1
    = (runChecks db2 userId (timesOf userId calls)).1 /\
  (runCalls db1 calls).2 !! userId
    = (runChecks db2 userId (timesOf userId calls)).2 !! userId.
Proof.
  revert db1 db2. induction calls as [|[caller now] rest IH]; intros db1 db2 Heq.
  - cbn. split; [reflexivity | exact Heq].
  - cbn [runCalls timesOf].
    destruct (checkRateLimit db1 caller now) as [d db1'] eqn:E1.
    destruct (String.eqb_spec caller userId) as [-> | Hne].
    + cbn [runChecks].
      destruct (checkRateLimit db2 userId now) as [d2 db2'] eqn:E2.
      destruct (check_agree db1 db2 userId now Heq) as [Hd Hdb].
      rewrite E1, E2 in Hd, Hdb. cbn [fst snd] in Hd, Hdb. subst d2.
      specialize (IH db1' db2' Hdb).
      destruct (runCalls db1' rest) as [ds dbA].
      destruct (runChecks db2' userId (timesOf userId rest)) as [ds2 dbB].
      cbn [fst snd decisionsOf] in *. rewrite String.eqb_refl.
      destruct IH as [-> ->]. split; reflexivity.
    + assert (Hdb : db1' !! userId = db2 !! userId).
      { pose proof (check_other db1 caller userId now Hne) as H.
        rewrite E1 in H. cbn [snd] in H. rewrite H. exact Heq. }
      specialize (IH db1' db2 Hdb).
      destruct (runCalls db1' rest) as [ds dbA].
      cbn [fst snd decisionsOf] in *.
      destruct (String.eqb_spec caller userId); [contradiction |].
      exact IH.
Qed.

(** X3. Users do not share a quota: in any sequence of calls of any users,
    the decisions a user receives, and the counter the user ends with, are
    those the user's own calls would produce alone. *)
Theorem users_do_not_share_quota db userId calls :
  decisionsOf userId calls (runCalls db calls).1
    = (runChecks db userId (timesOf userId calls)).1 /\
  (runCalls db calls).2 !! userId
    = (runChecks db userId (timesOf userId calls)).2 !! userId.
Proof. apply isolation_from. reflexivity. Qed.

Lemma bounded_check db caller now :
  bounded db -> bounded (checkRateLimit db caller now).2.
Proof.
  intros Hb. unfold checkRateLimit.
  destruct (Z.geb_spec (count (fetched db caller now)) 5) as [Hge | Hlt];
    cbn [snd]; [exact Hb |].
  intros userId c. destruct (decide (caller = userId)) as [-> | Hne].
  - rewrite lookup_insert_eq. intros [= <-]. cbn [bump count].
    destruct (fetched_cases db userId now) as [(k & Hdb & Hk) | (H0 & _)].
    + pose proof (Hb _ _ Hdb) as Hk5. cbn [count] in Hk5. lia.
    + lia.
  - rewrite lookup_insert_ne by exact Hne. apply Hb.
Qed.

(** X2. The stored count of every user stays between 0 and 5, whatever the
    users and the times of the calls. *)
Theorem stored_count_stays_within_limit db calls :
  bounded db -> bounded (runCalls db calls).2.
Proof.
  revert db. induction calls as [|[caller now] rest IH]; intros db Hb; [exact Hb |].
  cbn [runCalls].
  pose proof (bounded_check db caller now Hb) as Hb1.
  destruct (checkRateLimit db caller now) as [d db1]. cbn [snd] in Hb1.
  specialize (IH db1 Hb1). destruct (runCalls db1 rest) as [ds db2].
  exact IH.
Qed.

Lemma stored_count_stays_within_limit_witness :
  bounded (runCalls ∅ [("alice"%string, 0); ("bob"%string, 5); ("alice"%string, 10);
                       ("alice"%string, 20); ("alice"%string, 30); ("alice"%string, 40);
                       ("alice"%string, 50); ("alice"%string, 70000)]).2.
Proof.
  apply (stored_count_stays_within_limit ∅).
  intros userId c Hc. rewrite lookup_empty in Hc. discriminate.
Defined.

Lemma ceilDiv_covers (d : Z) : d <= 1000 * ceilDiv d 1000.
Proof.
  unfold ceilDiv.
  pose proof (Z.mul_div_le (- d) 1000 ltac:(lia)). lia.
Qed.

(** X1. A caller refused with [timeLeft] seconds who calls again more than
    [timeLeft] seconds later is admitted. A caller who comes back exactly
    [timeLeft] seconds later, when that is the instant the window ends, is
    refused again, with 0 seconds left. *)
Theorem retry_after_refusal db userId now timeLeft :
  (checkRateLimit db userId now).1 = Deny timeLeft ->
  (forall later, now + 1000 * timeLeft < later ->
     (checkRateLimit db userId later).1 = Allow) /\
  (windowEnd db userId now = now + 1000 * timeLeft ->
     checkRateLimit db userId (now + 1000 * timeLeft) = (Deny 0, db)).
Proof.
  intros Hdeny.
  assert (Hst : exists k, db !! userId = Some {| count := k; resetTime := windowEnd db userId now |}
                          /\ 5 <= k /\ now <= windowEnd db userId now
                          /\ timeLeft = ceilDiv (windowEnd db userId now - now) 1000).
  { unfold checkRateLimit in Hdeny. unfold windowEnd.
    unfold fetched, findOrNew, resetIfPassed in *.
    destruct (db !! userId) as [[k R]|]; cbn [resetTime count] in *.
    - rewrite Z.gtb_ltb in *. destruct (Z.ltb_spec R now); cbn [resetTime count] in *.
      + discriminate Hdeny.
      + destruct (Z.geb_spec k 5); cbn [fst] in Hdeny; [| discriminate].
        injection Hdeny as <-. exists k. repeat split; try reflexivity; lia.
    - rewrite Z.gtb_ltb in *.
      destruct (Z.ltb_spec (now + 60000) now); cbn [resetTime count fst] in Hdeny;
        discriminate Hdeny. }
  destruct Hst as (k & Hdb & Hk & Hnow & Hleft).
  set (R := windowEnd db userId now) in *.
  pose proof (ceilDiv_covers (R - now)) as Hcov. rewrite <- Hleft in Hcov.
  split.
  - intros later Hlater.
    rewrite check_fresh; [reflexivity |].
    unfold fetched, findOrNew, resetIfPassed. rewrite Hdb. cbn [resetTime].
    rewrite Z.gtb_ltb. destruct (Z.ltb_spec R later); [reflexivity | lia].
  - intros Hend. rewrite (check_stored _ _ _ _ _ Hdb) by lia.
    destruct (Z.geb_spec k 5); [| lia].
    rewrite Hend. replace (now + 1000 * timeLeft - (now + 1000 * timeLeft)) with 0 by lia.
    reflexivity.
Qed.

Lemma retry_after_refusal_witness :
  let db : gmap string RateLimit :=
    {[ "alice"%string := {| count := 5; resetTime := 60000 |} ]} in
  (checkRateLimit db "alice" 57000).1 = Deny 3 /\
  (checkRateLimit db "alice" 60001).1 = Allow /\
  checkRateLimit db "alice" (57000 + 1000 * 3) = (Deny 0, db).
Proof.
  intros db.
  assert (Hdeny : (checkRateLimit db "alice" 57000).1 = Deny 3)
    by (vm_compute; reflexivity).
  destruct (retry_after_refusal db "alice" 57000 3 Hdeny) as [Hlater Hexact].
  split; [exact Hdeny |]. split.
  - apply Hlater. lia.
  - apply Hexact. vm_compute. reflexivity.
Defined.

End TrafficFacts.

(** ** Requests in flight together *)

Module FlightFacts.
Import RateLimiter Race Traffic.
Import RateLimiterFacts.

Lemma runSchedule_app s1 s2 : forall db tasks,
  runSchedule (s1 ++ s2) db tasks =
    let '(db1, tasks1) := runSchedule s1 db tasks in runSchedule s2 db1 tasks1.
Proof.
  induction s1 as [|i s1 IH]; intros db tasks; [reflexivity |].
  cbn [app runSchedule]. destruct (tasks !! i) as [t|]; [| apply IH].
  destruct (stepTask db t) as [db1 t1]. apply IH.
Qed.

(** Tasks that take one turn each, in order, when the turn does not change
    the collection. *)
Lemma sweep (t t1 : Task) db :
  stepTask db t = (db, t1) ->
  forall m i,
    runSchedule (seq i m) db (replicate i t1 ++ replicate m t)
    = (db, replicate (i + m) t1).
Proof.
  intros Hstep. induction m as [|m IH]; intros i.
  - cbn. rewrite app_nil_r, Nat.add_0_r. reflexivity.
  - cbn [seq runSchedule].
    assert (Hi : (replicate i t1 ++ replicate (S m) t) !! i = Some t).
    { rewrite lookup_app_r by (rewrite length_replicate; lia).
      rewrite length_replicate, Nat.sub_diag. reflexivity. }
    rewrite Hi, Hstep.
    assert (Hins : <[i := t1]> (replicate i t1 ++ replicate (S m) t)
                   = replicate (S i) t1 ++ replicate m t).
    { rewrite insert_app_r_alt by (rewrite length_replicate; lia).
      rewrite length_replicate, Nat.sub_diag.
      change (<[0%nat := t1]> (replicate (S m) t)) with ([t1] ++ replicate m t).
      rewrite app_assoc, <- replicate_S_end. reflexivity. }
    rewrite Hins, (IH (S i)). f_equal. f_equal. lia.
Qed.

(** X4. Any number of requests of one user that all fetch the counter before
    the first of them saves are all admitted when a slot is left, however
    many they are, and the stored count rises by one only. *)
Theorem all_in_flight_admitted db userId k R now n :
  db !! userId = Some {| count := k; resetTime := R |} ->
  k < 5 ->
  now <= R ->
  runSchedule (seq 0 (S n) ++ seq 0 (S n)) db (replicate (S n) (Fetching userId now))
  = (<[userId := {| count := k + 1; resetTime := R |}]> db,
     replicate (S n) (Done Allow)).
Proof.
  intros Hdb Hk Hnow.
  set (doc := {| count := k + 1; resetTime := R |}).
  assert (Hfetch : stepTask db (Fetching userId now) = (db, Saving userId doc)).
  { cbn [stepTask]. unfold fetched, findOrNew, resetIfPassed. rewrite Hdb.
    cbn [resetTime]. rewrite Z.gtb_ltb. destruct (Z.ltb_spec R now); [lia |].
    cbn [count]. destruct (Z.geb_spec k 5); [lia | reflexivity]. }
  rewrite runSchedule_app.
  pose proof (sweep _ _ _ Hfetch (S n) 0%nat) as H1. cbn [replicate app] in H1.
  cbn [replicate]. rewrite H1. cbn [Nat.add seq runSchedule replicate].
  cbn [lookup list_lookup stepTask].
  change (<[0%nat := Done Allow]> (Saving userId doc :: replicate n (Saving userId doc)))
    with (replicate 1 (Done Allow) ++ replicate n (Saving userId doc)).
  assert (Hsave : stepTask (<[userId := doc]> db) (Saving userId doc)
                  = (<[userId := doc]> db, Done Allow)).
  { cbn [stepTask]. rewrite insert_insert_eq. reflexivity. }
  rewrite (sweep _ _ _ Hsave n 1%nat). reflexivity.
Qed.

Lemma all_in_flight_admitted_witness :
  let db : gmap string RateLimit :=
    {[ "alice"%string := {| count := 4; resetTime := 60000 |} ]} in
  runSchedule [0; 1; 2; 0; 1; 2]%nat db
    [Fetching "alice" 1000; Fetching "alice" 1000; Fetching "alice" 1000]
  = (<["alice"%string := {| count := 4 + 1; resetTime := 60000 |}]> db,
     [Done Allow; Done Allow; Done Allow]).
Proof.
  intros db.
  apply (all_in_flight_admitted db "alice" 4 60000 1000 2).
  - reflexivity.
  - lia.
  - lia.
Defined.

Lemma bounded_step db t :
  bounded db -> taskBounded t ->
  bounded (stepTask db t).1 /\ taskBounded (stepTask db t).2.
Proof.
  intros Hb Ht. destruct t as [userId now | userId doc | d]; cbn [stepTask].
  - destruct (Z.geb_spec (count (fetched db userId now)) 5) as [Hge | Hlt];
      cbn [fst snd taskBounded]; [split; [exact Hb | exact I] |].
    split; [exact Hb |]. cbn [bump count].
    destruct (fetched_cases db userId now) as [(k & Hdb & Hk) | (H0 & _)].
    + pose proof (Hb _ _ Hdb) as Hk5. cbn [count] in Hk5. lia.
    + lia.
  - cbn [fst snd taskBounded]. split; [| exact I].
    intros u c. destruct (decide (userId = u)) as [-> | Hne].
    + rewrite lookup_insert_eq. intros [= <-]. exact Ht.
    + rewrite lookup_insert_ne by exact Hne. apply Hb.
  - cbn [fst snd]. split; [exact Hb | exact I].
Qed.

Lemma fetched_in_scope db userId c now :
  db !! userId = Some c -> now <= resetTime c -> fetched db userId now = c.
Proof.
  intros Hdb Hnow. unfold fetched, findOrNew, resetIfPassed. rewrite Hdb.
  rewrite Z.gtb_ltb. destruct (Z.ltb_spec (resetTime c) now); [lia | reflexivity].
Qed.

(** A turn of a task of the model leaves it, and every other task, in the
    model. *)
Lemma scope_step db t :
  inScope db t ->
  inScope (stepTask db t).1 (stepTask db t).2 /\
  forall t', inScope db t' -> inScope (stepTask db t).1 t'.
Proof.
  intros Ht. destruct t as [userId now | userId doc | d]; cbn [stepTask].
  - destruct Ht as (c & Hdb & Hnow).
    rewrite (fetched_in_scope db userId c now Hdb Hnow).
    destruct (count c >=? 5); cbn [fst snd]; (split; [| intros t' Ht'; exact Ht']).
    + exact I.
    + exists c. split; [exact Hdb | reflexivity].
  - destruct Ht as (c & Hdb & Hreset). cbn [fst snd]. split; [exact I |].
    intros [v now' | v doc' | d'] Ht'; cbn [inScope] in *; [| | exact I].
    + destruct Ht' as (c' & Hdb' & Hnow').
      destruct (decide (userId = v)) as [-> | Hne].
      * exists doc. rewrite lookup_insert_eq. split; [reflexivity |].
        rewrite Hdb in Hdb'. injection Hdb' as <-. lia.
      * exists c'. rewrite lookup_insert_ne by exact Hne. split; assumption.
    + destruct Ht' as (c' & Hdb' & Hreset').
      destruct (decide (userId = v)) as [-> | Hne].
      * exists doc. rewrite lookup_insert_eq. split; [reflexivity |].
        rewrite Hdb in Hdb'. injection Hdb' as <-. congruence.
      * exists c'. rewrite lookup_insert_ne by exact Hne. split; assumption.
  - cbn [fst snd]. split; [exact I | intros t' Ht'; exact Ht'].
Qed.

(** X5. For requests in flight that found, or will find, the stored counter
    of their user inside its window, whatever the order in which they take
    their turns, every stored count stays between 0 and 5, and the requests
    stay of that kind: the counter never shows that more than five requests
    were admitted. *)
Theorem interleaving_keeps_count_within_limit sched : forall db tasks,
  bounded db ->
  Forall taskBounded tasks ->
  Forall (inScope db) tasks ->
  bounded (runSchedule sched db tasks).1 /\
  Forall taskBounded (runSchedule sched db tasks).2 /\
  Forall (inScope (runSchedule sched db tasks).1) (runSchedule sched db tasks).2.
Proof.
  induction sched as [|i rest IH]; intros db tasks Hb Hts Hsc;
    [split; [| split]; assumption |].
  cbn [runSchedule]. destruct (tasks !! i) as [t|] eqn:Hi; [| apply IH; assumption].
  assert (Ht : taskBounded t) by (rewrite Forall_lookup in Hts; exact (Hts i t Hi)).
  assert (Hs : inScope db t) by (rewrite Forall_lookup in Hsc; exact (Hsc i t Hi)).
  destruct (bounded_step db t Hb Ht) as [Hb1 Ht1].
  destruct (scope_step db t Hs) as [Hs1 Hothers].
  destruct (stepTask db t) as [db1 t1]. cbn [fst snd] in *.
  apply IH; [exact Hb1 | apply Forall_insert; assumption |].
  apply Forall_insert; [| exact Hs1].
  eapply Forall_impl; [exact Hsc | exact Hothers].
Qed.

Lemma interleaving_keeps_count_within_limit_witness :
  let db : gmap string RateLimit :=
    {[ "alice"%string := {| count := 4; resetTime := 60000 |} ]} in
  bounded (runSchedule [0; 1; 0; 1]%nat db
             [Fetching "alice" 1000; Fetching "alice" 1000]).1.
Proof.
  intros db.
  apply (interleaving_keeps_count_within_limit [0; 1; 0; 1]%nat db
           [Fetching "alice" 1000; Fetching "alice" 1000]).
  - intros u c Hc. subst db. apply lookup_singleton_Some in Hc as [_ <-]. cbn. lia.
  - repeat constructor.
  - repeat constructor;
      (exists {| count := 4; resetTime := 60000 |}; split; [reflexivity | cbn; lia]).
Defined.

End FlightFacts.

(** ** Connections of the hub *)

Module ConnectionFacts.
Import Hub.

(** X6. A second connection of a user replaces the first in the registry:
    events go to the new connection only. The [close] handler of the first
    connection deletes by user id, so when the first connection closes after
    that, the user is left without a registered connection and events are
    dropped although the second connection is open. *)
Theorem stale_close_drops_new_connection ok userId res1 res2 data st :
  let st2 := (subscribe true userId res2 (subscribe true userId res1 st).2).2 in
  sseClients st2 !! userId = Some res2 /\
  sendSSEUpdate true userId data st2
    = (Returned, {| sseClients := sseClients st2;
                    wire := wire st2 ++ [(res2, data)] |}) /\
  sseClients (onClose userId st2) !! userId = None /\
  sendSSEUpdate ok userId data (onClose userId st2) = (Returned, onClose userId st2).
Proof.
  cbn zeta. unfold subscribe, write, onClose. cbn [snd sseClients wire].
  assert (H2 : <[userId := res2]> (<[userId := res1]> (sseClients st)) !! userId
               = Some res2) by apply lookup_insert_eq.
  split; [exact H2 |]. split.
  - unfold sendSSEUpdate, write. cbn [sseClients wire]. rewrite H2. reflexivity.
  - split; [apply lookup_delete_eq |].
    unfold sendSSEUpdate. cbn [sseClients]. rewrite lookup_delete_eq. reflexivity.
Qed.

(** X7. After a write to a user's connection has thrown, the connection is
    no longer registered: nothing was delivered, and every later event for
    the user is dropped until the user connects again. *)
Theorem failed_write_ends_delivery ok userId client data1 data2 st :
  sseClients st !! userId = Some client ->
  let st1 := (sendSSEUpdate false userId data1 st).2 in
  wire st1 = wire st /\
  sseClients st1 !! userId = None /\
  sendSSEUpdate ok userId data2 st1 = (Returned, st1).
Proof.
  intros Hc. cbn zeta.
  assert (E : sendSSEUpdate false userId data1 st
              = (Returned, {| sseClients := delete userId (sseClients st);
                              wire := wire st |}))
    by (unfold sendSSEUpdate, write; rewrite Hc; reflexivity).
  rewrite E. cbn [snd wire sseClients].
  split; [reflexivity |]. split; [apply lookup_delete_eq |].
  unfold sendSSEUpdate. cbn [sseClients]. rewrite lookup_delete_eq. reflexivity.
Qed.

Lemma failed_write_ends_delivery_witness :
  let st := {| sseClients := {[ "alice"%string := 7%nat ]}; wire := [(7%nat, Connected)] |} in
  let st1 := (sendSSEUpdate false "alice" (InvoiceReady "inv1") st).2 in
  wire st1 = wire st /\
  sseClients st1 !! "alice"%string = None /\
  sendSSEUpdate true "alice" (InvoiceReady "inv2") st1 = (Returned, st1).
Proof.
  intros st.
  apply (failed_write_ends_delivery true "alice" 7%nat
           (InvoiceReady "inv1") (InvoiceReady "inv2") st).
  reflexivity.
Defined.

(** X8. An event for one user reaches no connection of another user and
    leaves the other users' registrations as they are. *)
Theorem publish_reaches_owner_only ok userId data st :
  let st1 := (sendSSEUpdate ok userId data st).2 in
  (forall other, other <> userId ->
     sseClients st1 !! other = sseClients st !! other) /\
  (forall client event, (client, event) ∈ wire st1 ->
     (client, event) ∈ wire st
     \/ (sseClients st !! userId = Some client /\ event = data)).
Proof.
  cbn zeta. unfold sendSSEUpdate, write.
  destruct (sseClients st !! userId) as [c|] eqn:Hc.
  - destruct ok; cbn [snd sseClients wire].
    + split; [reflexivity |]. intros client event Hin.
      apply elem_of_app in Hin as [Hin | Hin]; [left; exact Hin |].
      apply list_elem_of_singleton in Hin. injection Hin as -> ->.
      right. split; reflexivity.
    + split; [| intros; left; assumption].
      intros other Hne. apply lookup_delete_ne. congruence.
  - cbn [snd]. split; [reflexivity | intros; left; assumption].
Qed.

Lemma publish_reaches_owner_only_witness :
  let st := {| sseClients := {[ "alice"%string := 7%nat; "bob"%string := 8%nat ]};
               wire := [] |} in
  sseClients (sendSSEUpdate false "alice" (InvoiceReady "inv1") st).2 !! "bob"%string
    = Some 8%nat.
Proof.
  intros st.
  destruct (publish_reaches_owner_only false "alice" (InvoiceReady "inv1") st)
    as [Hreg _].
  refine (eq_trans (Hreg "bob"%string _) _); [discriminate | reflexivity].
Defined.

End ConnectionFacts.

(** ** From the creation of a job to its download *)

Module PipelineFacts.
Import RateLimiter Hub Job Api.

(** The download route reads the invoices and the files only. *)
Lemma download_reads isObjectId validHeader s1 s2 caller id :
  invoices s1 = invoices s2 -> files s1 = files s2 ->
  download isObjectId validHeader s1 caller id
  = download isObjectId validHeader s2 caller id.
Proof. intros Hi Hf. unfold download. rewrite Hi, Hf. reflexivity. Qed.

Lemma sendSSEUpdate_cases ok userId data h :
  sendSSEUpdate ok userId data h = (Returned, h)
  \/ exists client, sseClients h !! userId = Some client /\
       ((ok = true /\ sendSSEUpdate ok userId data h
           = (Returned, {| sseClients := sseClients h;
                           wire := wire h ++ [(client, data)] |}))
        \/ (sendSSEUpdate ok userId data h
           = (Returned, {| sseClients := delete userId (sseClients h);
                           wire := wire h |}))).
Proof.
  unfold sendSSEUpdate, write. destruct (sseClients h !! userId) as [client|].
  - right. exists client. split; [reflexivity |].
    destruct ok; [left; split; reflexivity | right; reflexivity].
  - left. reflexivity.
Qed.

(** A run in which the PDF is written and the [save] resolves. *)
Lemma runJob_success e inv s buffer :
  written (render e) = Some buffer ->
  readySaved e = true ->
  (runJob e inv s).1 = (Returned, markReady inv) /\
  invoices (runJob e inv s).2 = <[_id inv := markReady inv]> (invoices s) /\
  files (runJob e inv s).2 = <[pdfName inv := buffer]> (files s).
Proof.
  intros Hw Hs. unfold runJob, jobTry, generatePDF. rewrite Hw, Hs.
  destruct (sendSSEUpdate (pushed e) (userId (markReady inv))
              (InvoiceReady (_id (markReady inv)))
              (hub (save (markReady inv)
                      (setFiles (<[pdfName inv := buffer]> (files s)) s))))
    as [c h] eqn:E.
  assert (c = Returned) as ->.
  { unfold sendSSEUpdate, write in E.
    destruct (sseClients _ !! _); [destruct (pushed e) |]; congruence. }
  cbn. repeat split.
Qed.

(** A run in which the renderer throws and the [save] of [catch] resolves. *)
Lemma runJob_failure e inv s :
  written (render e) = None ->
  failedSaved e = true ->
  (runJob e inv s).1 = (Returned, markFailed inv) /\
  invoices (runJob e inv s).2 = <[_id inv := markFailed inv]> (invoices s) /\
  files (runJob e inv s).2 = files s.
Proof.
  intros Hw Hs. unfold runJob, jobTry, jobCatch, generatePDF. rewrite Hw, Hs.
  destruct (sendSSEUpdate (pushed e) (userId (markFailed inv))
              (InvoiceFailed (_id (markFailed inv)))
              (hub (save (markFailed inv) s)))
    as [c h] eqn:E.
  assert (c = Returned) as ->.
  { unfold sendSSEUpdate, write in E.
    destruct (sseClients _ !! _); [destruct (pushed e) |]; congruence. }
  cbn. repeat split.
Qed.

(** X9. End-to-end scenario 1. A request the limiter admits and whose
    [save] resolves is answered 201 with a job in status processing; until
    the job has run its download is refused with 400; once the job has run
    with a PDF rendered by [toBlob] and a resolved [save], the owner
    downloads exactly the rendered bytes, under the file name made from the
    invoice number, provided [res.setHeader] accepts the header made from
    that number; otherwise the route answers 500. *)
Theorem created_job_becomes_downloadable isObjectId validHeader
  s userId now oid b e buffer :
  (checkRateLimit (rateLimits s) userId now).1 = Allow ->
  isObjectId oid = true ->
  toBlob (render e) = Some buffer ->
  readySaved e = true ->
  let s1 := (postInvoice true oid userId now b s).2 in
  let s2 := (runJob e (newInvoice oid userId b) s1).2 in
  (postInvoice true oid userId now b s).1 = Created (newInvoice oid userId b) /\
  download isObjectId validHeader s1 userId oid
    = Json 400 "PDF not ready for download" /\
  download isObjectId validHeader s2 userId oid
    = if validHeader (disposition (bInvoiceNumber b))
      then Attachment ("invoice-" ++ bInvoiceNumber b ++ ".pdf") buffer
      else Json 500 "Internal server error".
Proof.
  intros Hallow Hid Hblob Hs. cbn zeta.
  set (inv := newInvoice oid userId b).
  assert (Hw : written (render e) = Some buffer)
    by (unfold written; rewrite Hblob; reflexivity).
  destruct (runJob_success e inv (postInvoice true oid userId now b s).2 buffer Hw Hs)
    as (_ & Hinv & Hfiles).
  unfold postInvoice in *.
  destruct (checkRateLimit (rateLimits s) userId now) as [d rl].
  cbn [fst] in Hallow. subst d. cbn [fst snd] in *. fold inv in Hinv, Hfiles |- *.
  split; [reflexivity |]. split.
  - unfold download, findOne, save. rewrite Hid. cbn [invoices setInvoices].
    change (_id inv) with oid. rewrite lookup_insert_eq.
    change (Job.userId inv) with userId. rewrite String.eqb_refl. reflexivity.
  - unfold download, findOne. rewrite Hid, Hinv, Hfiles.
    change (_id inv) with oid. rewrite lookup_insert_eq.
    change (Job.userId (markReady inv)) with userId. rewrite String.eqb_refl.
    cbn [status markReady isReady negb orb pdfPath].
    change (truthy (Some (pdfName inv))) with true. cbn [negb].
    rewrite lookup_insert_eq. reflexivity.
Qed.

Lemma created_job_becomes_downloadable_witness :
  let s := {| rateLimits := ∅; invoices := ∅; files := ∅;
              hub := {| sseClients := {[ "alice"%string := 7%nat ]}; wire := [] |} |} in
  let b := {| bClientName := "Acme"; bClientEmail := "billing@acme.test";
              bInvoiceNumber := "INV-001" |} in
  let e := {| render := {| toBlob := Some "%PDF-1.3"%string; fallback := None |};
              readySaved := true; failedSaved := true; pushed := true |} in
  let s1 := (postInvoice true "64f1a2b3c4d5e6f708192a3b" "alice" 1000 b s).2 in
  let s2 := (runJob e (newInvoice "64f1a2b3c4d5e6f708192a3b" "alice" b) s1).2 in
  download hexId visible s2 "alice" "64f1a2b3c4d5e6f708192a3b"
    = Attachment "invoice-INV-001.pdf" "%PDF-1.3" /\
  wire (hub s2) = [(7%nat, InvoiceReady "64f1a2b3c4d5e6f708192a3b")].
Proof.
  intros s b e s1 s2. split; [| reflexivity].
  apply (created_job_becomes_downloadable hexId visible s "alice" 1000
           "64f1a2b3c4d5e6f708192a3b" b e "%PDF-1.3"%string).
  - reflexivity.
  - reflexivity.
  - reflexivity.
  - reflexivity.
Defined.

(** A job whose run stalls stays as it was created: in status processing,
    with its download refused. *)
Lemma stalled_job_stays_processing isObjectId validHeader s oid userId b :
  isObjectId oid = true ->
  let inv := newInvoice oid userId b in
  let '(k, inv1, s1) := runCourse Stalled inv (save inv s) in
  k = None /\ status inv1 = processing /\
  download isObjectId validHeader s1 userId oid
    = Json 400 "PDF not ready for download".
Proof.
  intros Hid. cbn. split; [reflexivity |]. split; [reflexivity |].
  unfold download, findOne, save. rewrite Hid. cbn [invoices setInvoices _id newInvoice].
  rewrite lookup_insert_eq. cbn [Job.userId]. rewrite String.eqb_refl. reflexivity.
Qed.

(** X10. End-to-end scenario 4. When the renderer throws on both paths and
    the [save] of the [catch] block resolves, the stored job is the job with
    status failed and nothing else changed, no file is written, and the
    owner's download is refused with 400 (the job's id being an ObjectId;
    for another string the route would answer 500). *)
Theorem failed_render_ends_failed isObjectId validHeader e inv s :
  written (render e) = None ->
  failedSaved e = true ->
  let s1 := (runJob e inv s).2 in
  invoices s1 !! _id inv = Some (markFailed inv) /\
  files s1 = files s /\
  download isObjectId validHeader s1 (userId inv) (_id inv)
    = if isObjectId (_id inv)
      then Json 400 "PDF not ready for download"
      else Json 500 "Internal server error".
Proof.
  intros Hw Hs. cbn zeta.
  destruct (runJob_failure e inv s Hw Hs) as (_ & Hinv & Hfiles).
  split; [rewrite Hinv; apply lookup_insert_eq |].
  split; [exact Hfiles |].
  unfold download, findOne. destruct (isObjectId (_id inv)); [| reflexivity].
  rewrite Hinv, lookup_insert_eq.
  change (Job.userId (markFailed inv)) with (Job.userId inv).
  rewrite String.eqb_refl. reflexivity.
Qed.

Lemma failed_render_ends_failed_witness :
  let inv := newInvoice "64f1a2b3c4d5e6f708192a3b" "alice"
               {| bClientName := "Acme"; bClientEmail := "billing@acme.test";
                  bInvoiceNumber := "INV-001" |} in
  let s := {| rateLimits := ∅;
              invoices := {[ "64f1a2b3c4d5e6f708192a3b"%string := inv ]}; files := ∅;
              hub := {| sseClients := {[ "alice"%string := 7%nat ]}; wire := [] |} |} in
  let e := {| render := {| toBlob := None; fallback := None |};
              readySaved := true; failedSaved := true; pushed := true |} in
  let s1 := (runJob e inv s).2 in
  invoices s1 !! "64f1a2b3c4d5e6f708192a3b"%string = Some (markFailed inv) /\
  files s1 = ∅ /\
  download hexId visible s1 "alice" "64f1a2b3c4d5e6f708192a3b"
    = Json 400 "PDF not ready for download".
Proof.
  intros inv s e.
  apply (failed_render_ends_failed hexId visible e inv s); reflexivity.
Defined.

(** X11. A run of a job, whatever its outcome, leaves the rate-limit
    counters, the invoices of other ids and the files of other names as they
    were. When the callback returns, the registrations of other users are
    as they were too. When it ends in the rejection that nothing handles
    (the [save] of the [catch] block rejects), the process ends and no
    registration is left. *)
Theorem runJob_touches_only_its_job e inv s :
  let s1 := (runJob e inv s).2 in
  rateLimits s1 = rateLimits s /\
  (forall id, id <> _id inv -> invoices s1 !! id = invoices s !! id) /\
  (forall name, name <> pdfName inv -> files s1 !! name = files s !! name) /\
  ((runJob e inv s).1.1 = Returned ->
   forall other, other <> userId inv ->
     sseClients (hub s1) !! other = sseClients (hub s) !! other) /\
  ((runJob e inv s).1.1 = Thrown -> sseClients (hub s1) = ∅).
Proof.
  cbn zeta. unfold runJob, jobTry, jobCatch, generatePDF, crashed.
  destruct (written (render e)) as [buffer|];
    [destruct (readySaved e) |]; try destruct (failedSaved e);
    repeat match goal with
    | |- context [sendSSEUpdate ?ok ?u ?d ?h] =>
        let H := fresh "H" in
        destruct (sendSSEUpdate_cases ok u d h) as [H | (client & Hc & [[_ H] | H])];
        rewrite H; clear H
    end;
    cbn [snd fst rateLimits invoices files hub setHub save setInvoices setFiles
         sseClients markReady markFailed _id userId];
    repeat split; try reflexivity; try discriminate;
    intros; rewrite ?lookup_insert_ne, ?lookup_delete_ne by congruence;
    reflexivity.
Qed.

Lemma runJob_touches_only_its_job_witness :
  let inv := newInvoice "inv1" "alice"
               {| bClientName := "Acme"; bClientEmail := "billing@acme.test";
                  bInvoiceNumber := "INV-001" |} in
  let other := newInvoice "inv2" "bob"
               {| bClientName := "Initech"; bClientEmail := "ap@initech.test";
                  bInvoiceNumber := "INV-002" |} in
  let s := {| rateLimits := ∅;
              invoices := {[ "inv1"%string := inv; "inv2"%string := other ]};
              files := ∅;
              hub := {| sseClients := {[ "bob"%string := 8%nat ]}; wire := [] |} |} in
  let e := {| render := {| toBlob := Some "%PDF-1.3"%string; fallback := None |};
              readySaved := true; failedSaved := true; pushed := true |} in
  let crash := {| render := {| toBlob := None; fallback := None |};
                  readySaved := true; failedSaved := false; pushed := true |} in
  invoices (runJob e inv s).2 !! "inv2"%string = Some other /\
  sseClients (hub (runJob e inv s).2) !! "bob"%string = Some 8%nat /\
  sseClients (hub (runJob crash inv s).2) = ∅.
Proof.
  intros inv other s e crash.
  destruct (runJob_touches_only_its_job e inv s) as (_ & Hinv & _ & Hreg & _).
  destruct (runJob_touches_only_its_job crash inv s) as (_ & _ & _ & _ & Hcrash).
  split; [| split].
  - refine (eq_trans (Hinv "inv2"%string _) _); [discriminate | reflexivity].
  - refine (eq_trans (Hreg eq_refl "bob"%string _) _); [discriminate | reflexivity].
  - apply Hcrash. reflexivity.
Defined.

(** The events a run writes, and the stored job at that moment. *)
Lemma runJob_events e inv s :
  let inv1 := (runJob e inv s).1.2 in
  let s1 := (runJob e inv s).2 in
  wire (hub s1) = wire (hub s)
  \/ exists client,
       sseClients (hub s) !! userId inv = Some client /\
       invoices s1 !! _id inv = Some inv1 /\
       ((wire (hub s1) = wire (hub s) ++ [(client, InvoiceReady (_id inv))]
         /\ status inv1 = ready)
        \/ (wire (hub s1) = wire (hub s) ++ [(client, InvoiceFailed (_id inv))]
         /\ status inv1 = failed)).
Proof.
  cbn zeta. unfold runJob, jobTry, jobCatch, generatePDF.
  destruct (written (render e)) as [buffer|];
    [destruct (readySaved e) |]; try destruct (failedSaved e);
    repeat match goal with
    | |- context [sendSSEUpdate ?ok ?u ?d ?h] =>
        let H := fresh "H" in
        destruct (sendSSEUpdate_cases ok u d h) as [H | (client & Hc & [[_ H] | H])];
        rewrite H; clear H
    end;
    cbn [snd fst rateLimits invoices files hub setHub save setInvoices setFiles
         sseClients wire markReady markFailed _id userId status] in *;
    try (left; reflexivity);
    right; exists client; (split; [exact Hc |]);
    (split; [apply lookup_insert_eq |]);
    [left | left | right | right]; split; reflexivity.
Qed.

(** X12. A run of a job writes at most one event, to the connection
    registered for the job's owner, and only after the matching status is
    stored: when [invoice_ready] is written the stored job is ready, when
    [invoice_failed] is written the stored job is failed. *)
Theorem event_follows_stored_status e inv s :
  let inv1 := (runJob e inv s).1.2 in
  let s1 := (runJob e inv s).2 in
  wire (hub s1) = wire (hub s)
  \/ exists client,
       sseClients (hub s) !! userId inv = Some client /\
       invoices s1 !! _id inv = Some inv1 /\
       ((wire (hub s1) = wire (hub s) ++ [(client, InvoiceReady (_id inv))]
         /\ status inv1 = ready)
        \/ (wire (hub s1) = wire (hub s) ++ [(client, InvoiceFailed (_id inv))]
         /\ status inv1 = failed)).
Proof. apply runJob_events. Qed.

End PipelineFacts.

(** ** Authentication *)

Module AuthFacts.
Import Hub Api Auth.

Lemma splitOn_free sep w : free sep w = true -> splitOn sep w = [w].
Proof.
  induction w as [|c w IH]; intros Hf; [reflexivity |].
  cbn [splitOn free] in *. apply andb_true_iff in Hf as [Hc Hw].
  apply negb_true_iff in Hc. rewrite Hc, (IH Hw). reflexivity.
Qed.

Lemma splitOn_first sep w rest :
  free sep w = true ->
  splitOn sep (w ++ String sep rest) = w :: splitOn sep rest.
Proof.
  induction w as [|c w IH]; intros Hf.
  - change (splitOn sep (String sep rest) = EmptyString :: splitOn sep rest).
    cbn [splitOn]. rewrite Ascii.eqb_refl. reflexivity.
  - change (splitOn sep (String c (w ++ String sep rest))
            = String c w :: splitOn sep rest).
    cbn [splitOn free] in *. apply andb_true_iff in Hf as [Hc Hw].
    apply negb_true_iff in Hc. rewrite Hc, (IH Hw). reflexivity.
Qed.

Section Libraries.

Variable verify : string -> option string.
Variable sign : string -> string.
Variable hash : string -> string -> string.
Variable compare : string -> string -> bool.

(** X13. [authenticateToken] takes the second space-separated word of the
    header as the token and does not look at the first: for any scheme
    word, the request passes exactly when the token verifies, as the user
    of its payload. A header without a space, like a missing header, is
    answered 401. *)
Theorem header_scheme_is_not_checked scheme token :
  free Ascii.Space scheme = true ->
  free Ascii.Space token = true ->
  token <> ""%string ->
  authenticateToken verify (Some (scheme ++ String Ascii.Space token)%string)
    = match verify token with
      | Some userId => Next userId
      | None => Refused 403 "Invalid or expired token"
      end /\
  authenticateToken verify (Some token) = Refused 401 "Access token required" /\
  authenticateToken verify None = Refused 401 "Access token required".
Proof.
  intros Hs Ht Hne. split; [| split; [| reflexivity]].
  - unfold authenticateToken, headerToken.
    assert (Hsplit : splitOn Ascii.Space (scheme ++ String Ascii.Space token)
                     = [scheme; token])
      by (rewrite splitOn_first by exact Hs; rewrite splitOn_free by exact Ht;
          reflexivity).
    destruct scheme as [|c scheme]; cbn [String.append];
      cbn [String.append] in Hsplit; rewrite Hsplit; cbn [lookup list_lookup];
      destruct token; [contradiction | reflexivity | contradiction | reflexivity].
  - unfold authenticateToken, headerToken.
    destruct token as [|c token]; [contradiction |].
    rewrite splitOn_free by exact Ht. reflexivity.
Qed.

(** X14. A login with an unknown email and a login with a wrong password get
    the same answer, 400 'Invalid credentials'. *)
Theorem login_failure_indistinguishable email password e p users :
  nonEmpty email = Some e ->
  nonEmpty password = Some p ->
  users !! e = None
  \/ (exists user, users !! e = Some user /\ compare p (Auth.password user) = false) ->
  login sign compare email password users = Error 400 "Invalid credentials".
Proof.
  intros He Hp H. unfold login. rewrite He, Hp.
  destruct H as [-> | (user & -> & ->)]; reflexivity.
Qed.


(** X16. [GET /api/sse] changes the registration of a user only for a
    request whose token verifies as that user; a request without a token or
    with a token that does not verify leaves the hub as it is. *)
Theorem sse_registration_needs_token ok token res st userId :
  sseClients (sseEndpoint verify ok token res st).2 !! userId
    <> sseClients st !! userId ->
  exists t, nonEmpty token = Some t /\ verify t = Some userId.
Proof.
  unfold sseEndpoint. destruct (nonEmpty token) as [t|]; [| intros H; contradiction].
  destruct (verify t) as [v|] eqn:Hv; [| intros H; contradiction].
  cbn [snd]. unfold subscribe, write. intros Hchg. exists t. split; [reflexivity |].
  destruct (decide (v = userId)) as [-> | Hne]; [exact Hv |].
  exfalso. apply Hchg.
  destruct ok; cbn [snd sseClients]; apply lookup_insert_ne; exact Hne.
Qed.

End Libraries.

Lemma sse_registration_needs_token_witness :
  let verify := fun t : string =>
    if String.eqb t "tok-alice" then Some "alice"%string else None in
  exists t, nonEmpty (Some "tok-alice"%string) = Some t /\ verify t = Some "alice"%string.
Proof.
  intros verify.
  apply (sse_registration_needs_token verify true (Some "tok-alice"%string) 7%nat
           {| sseClients := ∅; wire := [] |} "alice").
  vm_compute. discriminate.
Defined.

Lemma header_scheme_is_not_checked_witness :
  let verify := fun t : string =>
    if String.eqb t "tok-alice" then Some "alice"%string else None in
  authenticateToken verify (Some "Basic tok-alice"%string) = Next "alice" /\
  authenticateToken verify (Some "tok-alice"%string)
    = Refused 401 "Access token required".
Proof.
  intros verify.
  destruct (header_scheme_is_not_checked verify "Basic" "tok-alice")
    as (H1 & H2 & _); [reflexivity | reflexivity | discriminate |].
  split; [exact H1 | exact H2].
Defined.

Lemma login_failure_indistinguishable_witness :
  let users : gmap string User :=
    {[ "alice@acme.test"%string := {| uid := "u1"; password := "h:secret1" |} ]} in
  let compare := fun p h : string => String.eqb ("h:" ++ p) h in
  login (fun id => id) compare (Some "bob@acme.test"%string) (Some "secret1"%string) users
    = Error 400 "Invalid credentials" /\
  login (fun id => id) compare (Some "alice@acme.test"%string) (Some "guess"%string) users
    = Error 400 "Invalid credentials".
Proof.
  intros users compare. split.
  - apply (login_failure_indistinguishable (fun id => id) compare
             (Some "bob@acme.test"%string) (Some "secret1"%string)
             "bob@acme.test" "secret1" users);
      [reflexivity | reflexivity | left; reflexivity].
  - apply (login_failure_indistinguishable (fun id => id) compare
             (Some "alice@acme.test"%string) (Some "guess"%string)
             "alice@acme.test" "guess" users);
      [reflexivity | reflexivity |].
    right. exists {| uid := "u1"; password := "h:secret1" |}.
    split; reflexivity.
Defined.


End AuthFacts.

(** ** The dashboard *)

Module DashboardFacts.
Import Hub Job Dashboard.
Import PipelineFacts.

(** X17. An SSE message changes nothing on screen but the status of the
    invoices whose id it announces: the list keeps its length and order,
    every invoice keeps all its other fields, and an invoice with another id
    is left as it is. Handling the same message again changes nothing
    more. *)
Theorem message_changes_status_only data prev :
  map _id (onMessage data prev) = map _id prev /\
  onMessage data (onMessage data prev) = onMessage data prev /\
  forall i invoice, prev !! i = Some invoice ->
    exists shown,
      onMessage data prev !! i = Some shown /\
      shown = withStatus (status shown) invoice /\
      (announcedId data <> Some (_id invoice) -> shown = invoice).
Proof.
  destruct data as [| id | id]; cbn [onMessage announcedId].
  - repeat split. intros i [] Hi. eexists. split; [exact Hi |].
    split; [reflexivity | reflexivity].
  - split; [| split].
    + rewrite map_map. apply map_ext. intros inv.
      destruct (String.eqb (_id inv) id); reflexivity.
    + rewrite map_map. apply map_ext. intros inv.
      destruct (String.eqb (_id inv) id) eqn:E; cbn [withStatus _id]; rewrite E;
        reflexivity.
    + intros i inv Hi. eexists. split.
      * rewrite list_lookup_fmap, Hi. reflexivity.
      * destruct (String.eqb_spec (_id inv) id) as [-> | Hne].
        -- split; [reflexivity | congruence].
        -- destruct inv. split; reflexivity.
  - split; [| split].
    + rewrite map_map. apply map_ext. intros inv.
      destruct (String.eqb (_id inv) id); reflexivity.
    + rewrite map_map. apply map_ext. intros inv.
      destruct (String.eqb (_id inv) id) eqn:E; cbn [withStatus _id]; rewrite E;
        reflexivity.
    + intros i inv Hi. eexists. split.
      * rewrite list_lookup_fmap, Hi. reflexivity.
      * destruct (String.eqb_spec (_id inv) id) as [-> | Hne].
        -- split; [reflexivity | congruence].
        -- destruct inv. split; reflexivity.
Qed.

Lemma message_changes_status_only_witness :
  let a := {| _id := "inv1"; userId := "alice"; clientName := "Acme";
              clientEmail := "billing@acme.test"; invoiceNumber := "INV-001";
              status := processing; pdfPath := None |} in
  let b := {| _id := "inv2"; userId := "alice"; clientName := "Initech";
              clientEmail := "ap@initech.test"; invoiceNumber := "INV-002";
              status := processing; pdfPath := None |} in
  exists shown,
    onMessage (InvoiceReady "inv1") [b; a] !! 0%nat = Some shown /\
    shown = withStatus (status shown) b /\
    (announcedId (InvoiceReady "inv1") <> Some (_id b) -> shown = b).
Proof.
  intros a b.
  destruct (message_changes_status_only (InvoiceReady "inv1") [b; a]) as (_ & _ & H).
  apply (H 0%nat b). reflexivity.
Defined.

(** X18. When a run of a job writes an event, a dashboard that took the job
    from the 201 answer and handles that event shows, for the job, the
    status of the stored job. *)
Theorem screen_agrees_with_store e inv s client data prev :
  wire (hub (runJob e inv s).2) = wire (hub s) ++ [(client, data)] ->
  exists shown stored,
    onMessage data (onCreated inv prev) !! 0%nat = Some shown /\
    invoices (runJob e inv s).2 !! _id inv = Some stored /\
    _id shown = _id inv /\
    status shown = status stored.
Proof.
  intros Hwire.
  destruct (runJob_events e inv s)
    as [Hsame | (client1 & _ & Hstored & [[Hw Hst] | [Hw Hst]])].
  - rewrite Hsame in Hwire. apply (f_equal length) in Hwire.
    rewrite length_app in Hwire. cbn in Hwire. lia.
  - rewrite Hw in Hwire. apply app_inv_head in Hwire. injection Hwire as _ <-.
    eexists. eexists. split; [| split; [exact Hstored |]].
    + cbn [onCreated onMessage map lookup list_lookup]. rewrite String.eqb_refl.
      reflexivity.
    + split; [reflexivity |]. rewrite Hst. reflexivity.
  - rewrite Hw in Hwire. apply app_inv_head in Hwire. injection Hwire as _ <-.
    eexists. eexists. split; [| split; [exact Hstored |]].
    + cbn [onCreated onMessage map lookup list_lookup]. rewrite String.eqb_refl.
      reflexivity.
    + split; [reflexivity |]. rewrite Hst. reflexivity.
Qed.

Lemma screen_agrees_with_store_witness :
  let inv := {| _id := "inv1"; userId := "alice"; clientName := "Acme";
                clientEmail := "billing@acme.test"; invoiceNumber := "INV-001";
                status := processing; pdfPath := None |} in
  let s := {| rateLimits := ∅; invoices := {[ "inv1"%string := inv ]}; files := ∅;
              hub := {| sseClients := {[ "alice"%string := 7%nat ]}; wire := [] |} |} in
  let e := {| render := {| toBlob := None; fallback := None |};
              readySaved := true; failedSaved := true; pushed := true |} in
  exists shown stored,
    onMessage (InvoiceFailed "inv1") (onCreated inv []) !! 0%nat = Some shown /\
    invoices (runJob e inv s).2 !! "inv1"%string = Some stored /\
    _id shown = "inv1"%string /\
    status shown = status stored.
Proof.
  intros inv s e.
  apply (screen_agrees_with_store e inv s 7%nat (InvoiceFailed "inv1") []).
  reflexivity.
Defined.

End DashboardFacts.

(** ** The avatar colour *)

Module AvatarFacts.
Import Avatar.

Lemma toInt32_shift (x k : Z) : toInt32 (x + 4294967296 * k) = toInt32 x.
Proof.
  unfold toInt32.
  replace (x + 4294967296 * k + 2147483648) with (x + 2147483648 + k * 4294967296) by lia.
  rewrite Z_mod_plus_full. reflexivity.
Qed.

Lemma toInt32_multiple (x : Z) : exists k, toInt32 x = x + 4294967296 * k.
Proof.
  exists (- ((x + 2147483648) / 4294967296)). unfold toInt32.
  pose proof (Z.div_mod (x + 2147483648) 4294967296 ltac:(lia)). lia.
Qed.

Lemma toInt32_range (x : Z) : - 2147483648 <= toInt32 x < 2147483648.
Proof.
  unfold toInt32.
  pose proof (Z.mod_pos_bound (x + 2147483648) 4294967296 ltac:(lia)). lia.
Qed.

Lemma toInt32_idem (x : Z) : toInt32 (toInt32 x) = toInt32 x.
Proof.
  destruct (toInt32_multiple x) as [k Hk]. rewrite Hk at 1. apply toInt32_shift.
Qed.

Lemma hashStep_poly (A b : Z) : hashStep (toInt32 A) b = toInt32 (31 * A + b).
Proof.
  unfold hashStep. cbn zeta. rewrite Z.land_diag, toInt32_idem.
  rewrite Z.shiftl_mul_pow2 by lia.
  destruct (toInt32_multiple A) as [k1 Hk1].
  destruct (toInt32_multiple (toInt32 A * 2 ^ 5)) as [k2 Hk2].
  rewrite Hk2, Hk1.
  replace ((A + 4294967296 * k1) * 2 ^ 5 + 4294967296 * k2 - (A + 4294967296 * k1) + b)
    with (31 * A + b + 4294967296 * (31 * k1 + k2)) by lia.
  apply toInt32_shift.
Qed.

Lemma hash_from (email : list Z) : forall A,
  fold_left hashStep email (toInt32 A)
  = toInt32 (fold_left (fun a b => 31 * a + b) email A).
Proof.
  induction email as [|b email IH]; intros A; [reflexivity |].
  cbn [fold_left]. rewrite hashStep_poly. apply IH.
Qed.

(** X19. The hash of [getGradientFromEmail] is the polynomial hash with
    multiplier 31 of the code units, reduced to a signed 32-bit integer, and
    the index computed from it always falls inside the table: for every
    email, the empty one included, the function returns one of the eight
    gradients and never [undefined]. *)
Theorem gradient_is_always_defined (email : list Z) :
  hashOf email = toInt32 (fold_left (fun a b => 31 * a + b) email 0) /\
  exists gradient,
    getGradientFromEmail email = Some gradient /\ gradient ∈ gradients.
Proof.
  split.
  - unfold hashOf. change 0 with (toInt32 0) at 1. apply hash_from.
  - unfold getGradientFromEmail.
    assert (Hlt : (Z.to_nat (Z.abs (hashOf email) mod Z.of_nat (length gradients))
                   < length gradients)%nat).
    { pose proof (Z.mod_pos_bound (Z.abs (hashOf email))
                    (Z.of_nat (length gradients)) ltac:(cbn; lia)).
      lia. }
    destruct (lookup_lt_is_Some_2 _ _ Hlt) as [g Hg].
    exists g. split; [exact Hg |]. eapply list_elem_of_lookup_2. exact Hg.
Qed.

(** The code units of a@b.c: (((97*31 + 64)*31 + 98)*31 + 46)*31 + 99. *)
Example gradient_of_a_at_b_c :
  hashOf [97; 64; 98; 46; 99] = 91583864 /\
  getGradientFromEmail [97; 64; 98; 46; 99] = Some "from-purple-500 to-pink-500"%string.
Proof. vm_compute. split; reflexivity. Qed.

End AvatarFacts.

(** ** The invoice form *)

Module FormFacts.
Import Form.

Section Numbers.

Variable num : Type.
Variable add mul : num -> num -> num.
Variable zero one : num.
Variable parseInt parseFloat : string -> num.
Variable positive : num -> bool.

(** The filter of [removeLineItem] deletes the row at [index], counting
    from the position [i] of the first row of [l]. *)
Lemma filterOut_delete (l : list (LineItem num)) : forall index i,
  filterOut num index i l
  = if (index <? i)%nat then l else delete (index - i)%nat l.
Proof.
  induction l as [|x l IH]; intros index i.
  - destruct (index <? i)%nat; reflexivity.
  - cbn [filterOut]. rewrite IH.
    destruct (Nat.eqb_spec i index) as [-> | Hne].
    + rewrite Nat.ltb_irrefl, Nat.sub_diag.
      destruct (Nat.ltb_spec index (S index)); [reflexivity | lia].
    + destruct (Nat.ltb_spec index i) as [Hlt | Hge].
      * destruct (Nat.ltb_spec index (S i)); [reflexivity | lia].
      * destruct (Nat.ltb_spec index (S i)); [lia |].
        replace (index - i)%nat with (S (index - S i)) by lia. reflexivity.
Qed.

Lemma delete_past_end (l : list (LineItem num)) : forall index,
  (length l <= index)%nat -> delete index l = l.
Proof.
  induction l as [|x l IH]; intros index Hout; [reflexivity |].
  destruct index as [|index]; [cbn in Hout; lia |].
  cbn [delete list_delete]. f_equal. apply IH. cbn in Hout. lia.
Qed.

Lemma removeLineItem_delete index (lineItems : list (LineItem num)) :
  removeLineItem num index lineItems
  = if (1 <? length lineItems)%nat then delete index lineItems else lineItems.
Proof.
  unfold removeLineItem. destruct (1 <? length lineItems)%nat; [| reflexivity].
  rewrite filterOut_delete. cbn. rewrite Nat.sub_0_r. reflexivity.
Qed.

Lemma removeLineItem_keeps_one index (lineItems : list (LineItem num)) :
  lineItems <> [] -> removeLineItem num index lineItems <> [].
Proof.
  rewrite removeLineItem_delete. intros Hne.
  destruct (Nat.ltb_spec 1 (length lineItems)) as [Hlen | Hlen]; [| exact Hne].
  intros Hnil. apply (f_equal length) in Hnil.
  destruct (Nat.lt_ge_cases index (length lineItems)) as [Hin | Hout].
  - rewrite length_delete in Hnil by (apply lookup_lt_is_Some_2; exact Hin).
    cbn in Hnil. lia.
  - rewrite delete_past_end in Hnil by exact Hout. cbn in Hnil. lia.
Qed.

(** X20. [removeLineItem] deletes exactly the row at the index, keeping the
    others in order, when the form has more than one row; it does nothing
    on a form with a single row or for an index past the last row. A form
    with a row never becomes empty. *)
Theorem remove_deletes_one_row_and_keeps_one index (lineItems : list (LineItem num)) :
  removeLineItem num index lineItems
    = (if (1 <? length lineItems)%nat then delete index lineItems else lineItems) /\
  (length lineItems <= index -> removeLineItem num index lineItems = lineItems)%nat /\
  (lineItems <> [] -> removeLineItem num index lineItems <> []).
Proof.
  split; [apply removeLineItem_delete |]. split.
  - intros Hout. rewrite removeLineItem_delete.
    destruct (1 <? length lineItems)%nat; [| reflexivity].
    apply delete_past_end. exact Hout.
  - apply removeLineItem_keeps_one.
Qed.

Lemma act_keeps_rows (a : Action) (rows rows1 : list (LineItem num)) :
  mul one zero = zero ->
  rows <> [] ->
  Forall (consistent num mul) rows ->
  act num mul zero one parseInt parseFloat a rows = Some rows1 ->
  rows1 <> [] /\ Forall (consistent num mul) rows1.
Proof.
  intros Hblank Hne Hall.
  assert (Hins : forall i x, consistent num mul x ->
            <[i := x]> rows <> [] /\ Forall (consistent num mul) (<[i := x]> rows)).
  { intros i x Hx. split; [| apply Forall_insert; assumption].
    intros Hnil. apply (f_equal length) in Hnil. rewrite length_insert in Hnil.
    destruct rows; [contradiction | discriminate]. }
  destruct a as [index field value | key modifier index | key modifier index | | index];
    cbn [act].
  - unfold handleLineItemChange. destruct (rows !! index) as [item|] eqn:Hi;
      [| discriminate].
    intros [= <-]. apply Hins.
    rewrite Forall_lookup in Hall. pose proof (Hall index item Hi) as Hitem.
    destruct field; [exact Hitem | reflexivity | reflexivity].
  - unfold handleQuantityKeyDown. destruct (rows !! index) as [item|]; [| discriminate].
    destruct (negb (quantityTouched num item) && isDigitKey key && negb modifier);
      intros [= <-]; [| split; assumption].
    apply Hins. reflexivity.
  - unfold handleRateKeyDown. destruct (rows !! index) as [item|]; [| discriminate].
    destruct (negb (rateTouched num item) && isDigitKey key && negb modifier);
      intros [= <-]; [| split; assumption].
    apply Hins. reflexivity.
  - intros [= <-]. unfold addLineItem. split.
    + intros Hnil. apply app_eq_nil in Hnil as [_ Hnil]. discriminate.
    + apply Forall_app. split; [exact Hall |]. constructor; [| constructor].
      unfold consistent, blankItem. cbn. symmetry. exact Hblank.
  - intros [= <-]. split; [apply removeLineItem_keeps_one; exact Hne |].
    rewrite removeLineItem_delete. destruct (1 <? length rows)%nat; [| exact Hall].
    apply Forall_delete. exact Hall.
Qed.

(** X21. Whatever the user types, adds or removes on the rows on screen, the
    form always has at least one row, and the amount of every row is the
    product of its quantity and its rate (given that the product of 1 and 0
    is 0, as it is for the numbers of the language). *)
Theorem rows_stay_consistent (actions : list Action) (rows : list (LineItem num)) :
  mul one zero = zero ->
  rowsAfter num mul zero one parseInt parseFloat actions = Some rows ->
  rows <> [] /\ Forall (consistent num mul) rows.
Proof.
  intros Hblank. unfold rowsAfter.
  assert (Hgen : forall start : list (LineItem num),
            start <> [] -> Forall (consistent num mul) start ->
            fold_left (fun rows a =>
                         match rows with
                         | Some lineItems =>
                             act num mul zero one parseInt parseFloat a lineItems
                         | None => None
                         end) actions (Some start) = Some rows ->
            rows <> [] /\ Forall (consistent num mul) rows).
  { induction actions as [|a actions IH]; intros start Hne Hall Hrun.
    - injection Hrun as <-. split; assumption.
    - cbn [fold_left] in Hrun.
      destruct (act num mul zero one parseInt parseFloat a start) as [rows1|] eqn:Ha.
      + destruct (act_keeps_rows a start rows1 Hblank Hne Hall Ha) as [Hne1 Hall1].
        exact (IH rows1 Hne1 Hall1 Hrun).
      + exfalso. clear -Hrun. induction actions as [|a' actions IH'];
          [discriminate | exact (IH' Hrun)]. }
  apply Hgen; [discriminate |].
  constructor; [| constructor]. unfold consistent, blankItem. cbn.
  symmetry. exact Hblank.
Qed.

Lemma subtotal_app (l1 l2 : list (LineItem num)) :
  calculateSubtotal num add zero (l1 ++ l2)
  = fold_left (fun sum item => add sum (amount num item)) l2
              (calculateSubtotal num add zero l1).
Proof. unfold calculateSubtotal. apply fold_left_app. Qed.

(** X22. [handleSubmit] sends only rows with a description and a positive
    quantity, in the order of the form, but computes the subtotal and the
    total over all rows: a row without description is left out of the
    submitted line items while its amount is added to the submitted
    subtotal. *)
Theorem submit_drops_rows_but_not_amounts formData (lineItems : list (LineItem num))
  tax (row : LineItem num) :
  description num row = ""%string ->
  dLineItems num (handleSubmit num add zero positive formData (lineItems ++ [row]) tax)
    = dLineItems num (handleSubmit num add zero positive formData lineItems tax) /\
  dSubtotal num (handleSubmit num add zero positive formData (lineItems ++ [row]) tax)
    = add (dSubtotal num (handleSubmit num add zero positive formData lineItems tax))
          (amount num row) /\
  dTotal num (handleSubmit num add zero positive formData (lineItems ++ [row]) tax)
    = add (add (dSubtotal num (handleSubmit num add zero positive formData lineItems tax))
               (amount num row)) tax /\
  Forall (fun item => cDescription num item <> ""%string
                      /\ positive (cQuantity num item) = true)
         (dLineItems num (handleSubmit num add zero positive formData lineItems tax)).
Proof.
  intros Hdesc. unfold handleSubmit, calculateTotal. cbn [dLineItems dSubtotal dTotal].
  split; [| split; [| split]].
  - rewrite map_app, List.filter_app. cbn [map List.filter].
    unfold kept at 2. cbn [clean cDescription]. rewrite Hdesc. apply app_nil_r.
  - rewrite subtotal_app. reflexivity.
  - rewrite subtotal_app. reflexivity.
  - apply Forall_forall. intros item Hin. apply list_elem_of_In in Hin.
    apply List.filter_In in Hin as [_ Hkept]. unfold kept in Hkept.
    destruct (cDescription num item); [discriminate |].
    split; [discriminate | exact Hkept].
Qed.

End Numbers.

Lemma rows_stay_consistent_witness :
  let rows :=
    [ {| description := ""; quantity := 3; rate := 25; amount := 75;
         quantityTouched := true; rateTouched := true |} ] in
  rowsAfter Z Z.mul 0 1 (fun _ => 3) (fun _ => 25)
    [AddItem; Change 1 fQuantity "3"; Change 1 fRate "25";
     RemoveItem 0; RemoveItem 0] = Some rows /\
  rows <> [] /\ Forall (consistent Z Z.mul) rows.
Proof.
  intros rows. split; [reflexivity |].
  apply (rows_stay_consistent Z Z.mul 0 1 (fun _ => 3) (fun _ => 25)
           [AddItem; Change 1 fQuantity "3"; Change 1 fRate "25";
            RemoveItem 0; RemoveItem 0] rows).
  - reflexivity.
  - reflexivity.
Defined.

Lemma submit_drops_rows_but_not_amounts_witness :
  let form := {| fClientName := "Acme"; fClientEmail := "billing@acme.test";
                 fInvoiceNumber := "INV-001"; fIssueDate := "2024-01-01";
                 fDueDate := "2024-01-31" |} in
  let widget := {| description := "Widget"; quantity := 2; rate := 10; amount := 20;
                   quantityTouched := true; rateTouched := true |} in
  let unnamed := {| description := ""; quantity := 1; rate := 5; amount := 5;
                    quantityTouched := false; rateTouched := true |} in
  let sent := handleSubmit Z Z.add 0 (fun q => 0 <? q) form [widget; unnamed] 2 in
  dLineItems Z sent = [clean Z widget] /\
  dSubtotal Z sent = 25 /\
  dTotal Z sent = 27.
Proof.
  intros form widget unnamed sent.
  destruct (submit_drops_rows_but_not_amounts Z Z.add 0 (fun q => 0 <? q)
              form [widget] 2 unnamed eq_refl)
    as (Hitems & Hsub & Htotal & _).
  split; [exact Hitems |]. split; [exact Hsub | exact Htotal].
Defined.

Lemma remove_deletes_one_row_and_keeps_one_witness :
  let row := fun d : string =>
    {| description := d; quantity := 1; rate := 2; amount := 2;
       quantityTouched := true; rateTouched := true |} in
  removeLineItem Z 5 [row "a"; row "b"] = [row "a"; row "b"] /\
  removeLineItem Z 0 [row "a"] <> [] /\
  removeLineItem Z 0 [row "a"; row "b"] = [row "b"].
Proof.
  intros row.
  destruct (remove_deletes_one_row_and_keeps_one Z 5%nat [row "a"; row "b"])
    as (_ & Hout & _).
  destruct (remove_deletes_one_row_and_keeps_one Z 0%nat [row "a"])
    as (_ & _ & Hkeep).
  split; [apply Hout; cbn; lia |]. split; [apply Hkeep; discriminate |].
  reflexivity.
Defined.

End FormFacts.
